(** * PyHLS: token codec, admin gate, manifest rewriter, segment resolution
      and metadata store, embedded from [utils.py], [database.py], [main.py]. *)

From Stdlib Require Import ZArith Lia Ascii String.
From stdpp Require Import base option gmap strings pretty list fin_maps.

Local Open Scope string_scope.
Local Open Scope Z_scope.

(** ** Python string operations used by the sources

    A [string] is read as a sequence of code points below 256. *)

(** [str.isspace] on one character: tab, line feed, vertical tab, form feed,
    carriage return, the separators 0x1c to 0x1f, space, NEL and NBSP. *)
Definition isspace (c : ascii) : bool :=
  let n := nat_of_ascii c in
  ((9 <=? n) && (n <=? 13) || (28 <=? n) && (n <=? 32)
   || (n =? 133) || (n =? 160))%nat.

Fixpoint lstrip (s : string) : string :=
  match s with
  | EmptyString => EmptyString
  | String c r => if isspace c then lstrip r else s
  end.

Fixpoint rstrip (s : string) : string :=
  match s with
  | EmptyString => EmptyString
  | String c r =>
      match rstrip r with
      | EmptyString => if isspace c then EmptyString else String c EmptyString
      | r' => String c r'
      end
  end.

(** [s.strip()]. *)
Definition strip (s : string) : string := rstrip (lstrip s).

(** [s.startswith(p)]. *)
Definition startswith (s p : string) : bool := String.prefix p s.

(** [s.endswith(suffix)]. *)
Fixpoint endswith (s suffix : string) : bool :=
  String.eqb s suffix
  || match s with
     | EmptyString => false
     | String _ r => endswith r suffix
     end.

(** [sub in s]. *)
Fixpoint contains (s sub : string) : bool :=
  String.prefix sub s
  || match s with
     | EmptyString => false
     | String _ r => contains r sub
     end.

(** [s.split(sep)] for a one-character separator. *)
Fixpoint split (sep : ascii) (s : string) : list string :=
  match s with
  | EmptyString => [EmptyString]
  | String c r =>
      if Ascii.eqb c sep then EmptyString :: split sep r
      else match split sep r with
           | [] => [String c EmptyString]
           | p :: ps => String c p :: ps
           end
  end.

(** [sep.join(parts)]. *)
Fixpoint join (sep : string) (parts : list string) : string :=
  match parts with
  | [] => EmptyString
  | [p] => p
  | p :: ps => p +:+ sep +:+ join sep ps
  end.

(** [join] with the empty separator, as the rewriter uses it. *)
Definition concat_lines (parts : list string) : string :=
  foldr String.append EmptyString parts.

Definition LF : ascii := ascii_of_nat 10.
Definition CR : ascii := ascii_of_nat 13.
Definition NL : string := String LF EmptyString.

(** Text-mode reading translates ["\r\n"] and ["\r"] to ["\n"]. *)
Fixpoint universal_newlines (s : string) : string :=
  match s with
  | EmptyString => EmptyString
  | String c r =>
      if Ascii.eqb c CR then
        match r with
        | String c' r' =>
            if Ascii.eqb c' LF then String LF (universal_newlines r')
            else String LF (universal_newlines r)
        | EmptyString => String LF EmptyString
        end
      else String c (universal_newlines r)
  end.

(** Lines of a translated text, each keeping its terminating ["\n"]. *)
Fixpoint keep_lines (s : string) : list string :=
  match s with
  | EmptyString => []
  | String c r =>
      if Ascii.eqb c LF then String c EmptyString :: keep_lines r
      else match keep_lines r with
           | [] => [String c EmptyString]
           | l :: ls => String c l :: ls
           end
  end.

(** [f.readlines()] on a file opened with mode ["r"]. *)
Definition readlines (raw : string) : list string :=
  keep_lines (universal_newlines raw).

(** *** Notions used to state the properties of the rewriter *)

(** [c in s] for one character. *)
Fixpoint has_char (c : ascii) (s : string) : bool :=
  match s with
  | EmptyString => false
  | String a r => Ascii.eqb a c || has_char c r
  end.

(** What follows the first occurrence of [c] in [s]. *)
Fixpoint after_first (c : ascii) (s : string) : option string :=
  match s with
  | EmptyString => None
  | String a r => if Ascii.eqb a c then Some r else after_first c r
  end.

(** What precedes the first occurrence of [c] in [s]: all of [s] when [c]
    does not occur. *)
Fixpoint before_first (c : ascii) (s : string) : string :=
  match s with
  | EmptyString => EmptyString
  | String a r =>
      if Ascii.eqb a c then EmptyString else String a (before_first c r)
  end.

(** The query component of a URI reference (RFC 3986, section 3 and
    appendix B): the fragment starts at the first ["#"], and the query is
    what follows the first ["?"] of the text before the fragment. A
    reference with no ["?"] before its fragment has no query. *)
Definition uri_query (url : string) : option string :=
  after_first "?" (before_first "#" url).

(** The query parameters of a URL, as they are written in it: the
    ["&"]-separated parts of its query component. *)
Definition query_params (url : string) : list string :=
  match uri_query url with
  | Some q => split "&" q
  | None => []
  end.

(** A string with no line break in it: neither a line feed nor a carriage
    return. *)
Definition single_line (s : string) : bool :=
  negb (has_char LF s) && negb (has_char CR s).

(** A line as [readlines] returns it: free of line feeds, but for the one
    that may end it. *)
Definition line_body (l body : string) : Prop :=
  has_char LF body = false /\ (l = body \/ l = body +:+ NL).

(** ** posixpath *)

Definition path_join (a b : string) : string :=
  if startswith b "/" then b
  else if String.eqb a EmptyString || endswith a "/" then a +:+ b
  else a +:+ "/" +:+ b.

(** [os.path.join(a, b, c)]. *)
Definition path_join3 (a b c : string) : string := path_join (path_join a b) c.

Definition initial_slashes (path : string) : nat :=
  if startswith path "/" then
    if startswith path "//" && negb (startswith path "///") then 2%nat
    else 1%nat
  else 0%nat.

(** One iteration of the component loop of [normpath]. *)
Definition normpath_step (slashes : nat) (new_comps : list string)
    (comp : string) : list string :=
  if String.eqb comp EmptyString || String.eqb comp "." then new_comps
  else if negb (String.eqb comp "..")
          || (Nat.eqb slashes 0 && bool_decide (new_comps = []))
          || (negb (bool_decide (new_comps = []))
              && String.eqb (List.last new_comps EmptyString) "..")
  then new_comps ++ [comp]
  else if negb (bool_decide (new_comps = [])) then removelast new_comps
  else new_comps.

Fixpoint repeat_string (s : string) (n : nat) : string :=
  match n with
  | O => EmptyString
  | S n' => s +:+ repeat_string s n'
  end.

Definition normpath (path : string) : string :=
  if String.eqb path EmptyString then "."
  else
    let slashes := initial_slashes path in
    let comps := fold_left (normpath_step slashes) (split "/" path) [] in
    let p := repeat_string "/" slashes +:+ join "/" comps in
    if String.eqb p EmptyString then "." else p.

(** [os.path.abspath(path)] in working directory [cwd]. *)
Definition abspath (cwd path : string) : string :=
  if startswith path "/" then normpath path
  else normpath (path_join cwd path).

(** ** JSON values and the PyJWT surface used by [utils.py] *)

(** The values that occur in token payloads and in stored records. *)
Inductive jvalue :=
| JStr (s : string)
| JInt (z : Z)
| JBool (b : bool).

#[global] Instance jvalue_eq_dec : EqDecision jvalue.
Proof. solve_decision. Defined.

(** A compact token string either fails to parse as three base64url parts
    ([Malformed]) or denotes a header algorithm, a payload and a signature. *)
Inductive token :=
| Malformed (raw : string)
| Jws (alg : string) (payload : gmap string jvalue) (signature : string).

(** Exceptions [jwt.decode] raises here; each derives from
    [InvalidTokenError]. *)
Inductive jwt_error :=
| DecodeError
| InvalidAlgorithmError
| InvalidSignatureError
| ExpiredSignatureError
| ImmatureSignatureError
| InvalidIssuedAtError.

(** ** Stored state *)

(** One resource record of the metadata store. Fields the handlers read with
    [.get] are optional; the others are read with [[...]]. Timestamps are
    clock readings. *)
Record media_record := MediaRecord {
  public_id : string;
  internal_id : string;
  access_key : string;
  admin_key : option string;
  upload_time : Z;
  expiry_minutes : option Z;
  last_token_refresh : option Z;
  expiry_extended_at : option Z;
  created_at : option Z;
  updated_at : option Z
}.

Definition set_expiry_minutes (r : media_record) (v : option Z) :=
  MediaRecord (public_id r) (internal_id r) (access_key r) (admin_key r)
    (upload_time r) v (last_token_refresh r) (expiry_extended_at r)
    (created_at r) (updated_at r).

Definition set_last_token_refresh (r : media_record) (v : option Z) :=
  MediaRecord (public_id r) (internal_id r) (access_key r) (admin_key r)
    (upload_time r) (expiry_minutes r) v (expiry_extended_at r)
    (created_at r) (updated_at r).

Definition set_expiry_extended_at (r : media_record) (v : option Z) :=
  MediaRecord (public_id r) (internal_id r) (access_key r) (admin_key r)
    (upload_time r) (expiry_minutes r) (last_token_refresh r) v
    (created_at r) (updated_at r).

Definition set_created_at (r : media_record) (v : option Z) :=
  MediaRecord (public_id r) (internal_id r) (access_key r) (admin_key r)
    (upload_time r) (expiry_minutes r) (last_token_refresh r)
    (expiry_extended_at r) v (updated_at r).

Definition set_updated_at (r : media_record) (v : option Z) :=
  MediaRecord (public_id r) (internal_id r) (access_key r) (admin_key r)
    (upload_time r) (expiry_minutes r) (last_token_refresh r)
    (expiry_extended_at r) (created_at r) v.

(** What the database file or its backup holds: a complete JSON document of
    a mapping, or the first [written] characters of one whose writing did not
    finish (a strict prefix of an object document, which is not valid JSON). *)
Inductive db_content :=
| Document (d : gmap string media_record)
| Truncated (d : gmap string media_record) (written : nat).

(** A node of the media tree. *)
Inductive node :=
| Dir
| File (content : string).

(** The file system as the program sees it. [video_database.json] and
    [video_database.json.backup] are plain names in the working directory and
    every media path lies under [media/hls], so the two database files are
    kept apart from the media tree, which is keyed by absolute normalised
    path. *)
Record world := World {
  db_file : option db_content;
  backup_file : option db_content;
  tree : gmap string node
}.

Definition set_db_file (w : world) (c : option db_content) : world :=
  World c (backup_file w) (tree w).

Definition set_backup_file (w : world) (c : option db_content) : world :=
  World (db_file w) c (tree w).

Definition set_tree (w : world) (t : gmap string node) : world :=
  World (db_file w) (backup_file w) t.

(** Where [_save_database] can stop short: at the rename of the current file
    to the backup, at the opening of the new file, during the dump after
    [written] characters, or at the removal of the backup. *)
Inductive point :=
| AtRename
| AtOpen
| AtDump (written : nat)
| AtRemove.

(** [Raise p]: the call at [p] raises an [Exception]. [Halt p]: execution
    stops before the call at [p] completes and no handler runs (the process
    is killed, or a [BaseException] such as [KeyboardInterrupt] passes the
    [except Exception] clause). *)
Inductive fault :=
| NoFault
| Raise (p : point)
| Halt (p : point).

Inductive outcome := Returned | Raised | Stopped.

(** One run of the external encoder ([ffmpeg]) on an upload: the segment
    files and the playlist it wrote into the output directory, and its error
    output if it failed. *)
Record encoder_run := EncoderRun {
  segments : list string;
  playlist : option string;
  stderr : option string
}.

(** Response bodies of the HTTP handlers (constant [message] fields are left
    out, except where the message is the whole body). *)
Inductive body :=
| UploadBody (media_id : string) (access_token : token) (admin_key : string)
    (playlist_url : string) (expires_in_minutes : Z)
| TokenBody (media_id : string) (access_token : token)
    (playlist_url : string) (expires_in_minutes : Z)
| PlaylistBody (content : string)
| FileBody (path : string)
| MessageBody (message : string)
| InfoBody (media_id : string) (upload_time : Z) (expiry_minutes : Z)
    (last_token_refresh created_at updated_at : option Z)
| ExtendBody (media_id : string)
    (previous_expiry_minutes new_expiry_minutes extended_by_minutes : Z).

Inductive response :=
| Ok (b : body)
| HTTPException (status_code : Z) (detail : string).

(** ** Sample instances

    Stand-ins for the primitives and a small state, on which the properties
    below are exercised. *)

Definition sample_sha256 (s : string) : string := "sha256(" +:+ s +:+ ")".

Definition sample_sign (alg key : string) (payload : gmap string jvalue)
  : string :=
  alg +:+ ":" +:+ key +:+ ":"
  +:+ match payload !! "jti" with Some (JStr s) => s | _ => "-" end.

Definition sample_int (s : string) : option Z := None.

Definition sample_compact (alg : string) (payload : gmap string jvalue)
    (signature : string) : string :=
  alg +:+ "." +:+ signature.

Definition sample_record : media_record :=
  MediaRecord "pub1" "int1" "ak1" (Some "adm1") 1000 (Some 60)
    None None None None.

Definition sample_record2 : media_record :=
  MediaRecord "pub2" "int2" "ak2" (Some "adm2") 2000 (Some 10000)
    None None None None.

Definition sample_cwd : string := "/srv/app".

Definition sample_world : world :=
  World (Some (Document {[ "pub1" := sample_record ]})) None
    (<["/srv/app/media/hls/int1" := Dir]>
     (<["/srv/app/media/hls/int1/playlist.m3u8" := File "#EXTM3U"]>
      (<["/srv/app/media/hls/int1/segment3.ts" := File "G"]> ∅))).

Definition sample_new_data : gmap string media_record :=
  <["pub2" := sample_record2]> {[ "pub1" := sample_record ]}.

Definition sample_failed_run : encoder_run :=
  EncoderRun ["G"; "G"] None (Some "codec").

Definition sample_ok_run : encoder_run :=
  EncoderRun ["G"; "H"] (Some ("#EXTM3U" +:+ NL +:+ "segment0.ts" +:+ NL))
    None.

Definition sample_cs : list string := ["srv"; "app"].

Definition sample_world2 : world :=
  World (Some (Document sample_new_data)) None
    (<["/srv/app/media/hls/int1" := Dir]>
     (<["/srv/app/media/hls/int1/playlist.m3u8" := File "#EXTM3U"]>
      (<["/srv/app/media/hls/int1/segment3.ts" := File "G"]>
       (<["/srv/app/media/hls/int2" := Dir]>
        (<["/srv/app/media/hls/int2/playlist.m3u8" := File "#EXTM3U"]>
         (<["/srv/app/media/hls/int2/segment0.ts" := File "H"]> ∅)))))).

(** The sample record file with nothing on disk beside it. *)
Definition sample_bare_world : world :=
  World (db_file sample_world) None (gmap_empty : gmap string node).

Section PyHLS.

#[local] Set Default Proof Using "Type".

(** [hashlib.sha256(s.encode()).hexdigest()]. *)
Variable sha256_hexdigest : string -> string.

(** The MAC PyJWT computes for algorithm [alg] under [key] over the signing
    input (header and payload) of a token. *)
Variable jws_sign : string -> string -> gmap string jvalue -> string.

(** Python's [int(s)] on a string claim; [None] is [ValueError]. *)
Variable int_of_str : string -> option Z.

(** Whether the installed PyJWT rejects an [iat] later than the clock
    (it does from 2.6 on). *)
Variable iat_future_rejected : bool.

(** env.py: process-wide configuration. [ALGORITHM] names an HMAC algorithm
    of PyJWT ([HS256] unless overridden). *)
Variable SECRET_KEY : string.
Variable ALGORITHM : string.

(** The compact serialisation of a well-formed token. *)
Variable jws_compact : string -> gmap string jvalue -> string -> string.

(** [os.getcwd()]. *)
Variable cwd : string.

(** [int(payload[claim])] as PyJWT applies it to [exp] and [iat]. *)
Definition claim_int (v : jvalue) : option Z :=
  match v with
  | JInt z => Some z
  | JBool b => Some (if b then 1 else 0)
  | JStr s => int_of_str s
  end.

Definition jwt_encode (payload : gmap string jvalue) (key algorithm : string)
  : token :=
  Jws algorithm payload (jws_sign algorithm key payload).

Definition validate_iat (payload : gmap string jvalue) (now : Z)
  : option jwt_error :=
  match payload !! "iat" with
  | None => None
  | Some v =>
      match claim_int v with
      | None => Some InvalidIssuedAtError
      | Some iat =>
          if iat_future_rejected && (now <? iat)
          then Some ImmatureSignatureError else None
      end
  end.

Definition validate_exp (payload : gmap string jvalue) (now : Z)
  : option jwt_error :=
  match payload !! "exp" with
  | None => None
  | Some v =>
      match claim_int v with
      | None => Some DecodeError
      | Some exp => if exp <=? now then Some ExpiredSignatureError else None
      end
  end.

(** [jwt.decode(token, key, algorithms=...)] at clock reading [now]. PyJWT
    writes [iat] and [exp] as whole seconds since the epoch and compares them
    with the current time; [now] is that time in whole seconds. The header
    algorithm must be listed, the signature must be the MAC of the signing
    input under [key], then [iat] and [exp] are validated. The claims that
    PyJWT validates only when a token carries them ([nbf], [aud]) are not
    modelled: no token this program issues carries one, and for a foreign
    token they can only add rejections. *)
Definition jwt_decode (now : Z) (t : token) (key : string)
    (algorithms : list string) : gmap string jvalue + jwt_error :=
  match t with
  | Malformed _ => inr DecodeError
  | Jws alg payload signature =>
      if negb (bool_decide (alg ∈ algorithms)) then inr InvalidAlgorithmError
      else if negb (String.eqb signature (jws_sign alg key payload))
      then inr InvalidSignatureError
      else match validate_iat payload now with
           | Some e => inr e
           | None =>
               match validate_exp payload now with
               | Some e => inr e
               | None => inl payload
               end
           end
  end.

(** ** utils.py *)

Definition generate_signing_key (secret_key access_key : string) : string :=
  sha256_hexdigest (secret_key +:+ ":" +:+ access_key).

Definition hash_string (value : string) : string := sha256_hexdigest value.

(** The payload of an access token; [now] is [datetime.utcnow()] and
    [token_id] the [secrets.token_hex(16)] draw. *)
Definition access_payload (now : Z) (token_id media_id access_key : string)
    (expiry_minutes : Z) : gmap string jvalue :=
  <["media_id" := JStr media_id]>
  (<["access_key_hash" := JStr (hash_string access_key)]>
  (<["iat" := JInt now]>
  (<["exp" := JInt (now + 60 * expiry_minutes)]>
  (<["jti" := JStr token_id]>
  (<["token_type" := JStr "access"]> ∅))))).

Definition create_access_token (now : Z) (token_id : string)
    (media_id access_key : string) (expiry_minutes : Z) : token :=
  let payload := access_payload now token_id media_id access_key
                   expiry_minutes in
  let signing_key := generate_signing_key SECRET_KEY access_key in
  jwt_encode payload signing_key ALGORITHM.

Definition verify_access_token (now : Z) (t : token)
    (expected_video_id access_key : string) : bool :=
  let signing_key := generate_signing_key SECRET_KEY access_key in
  match jwt_decode now t signing_key [ALGORITHM] with
  | inr _ => false
  | inl payload =>
      if negb (bool_decide (payload !! "token_type" = Some (JStr "access")))
      then false
      else if negb (bool_decide
                      (payload !! "media_id" = Some (JStr expected_video_id)))
      then false
      else
        let expected_hash := hash_string access_key in
        if negb (bool_decide
                   (payload !! "access_key_hash" = Some (JStr expected_hash)))
        then false
        else true
  end.

Definition create_admin_token (now : Z) (token_id : string)
    (admin_key : string) (expiry_hours : Z) : token :=
  let payload : gmap string jvalue :=
    <["admin" := JBool true]>
    (<["admin_key_hash" := JStr (hash_string admin_key)]>
    (<["iat" := JInt now]>
    (<["exp" := JInt (now + 3600 * expiry_hours)]>
    (<["jti" := JStr token_id]>
    (<["token_type" := JStr "admin"]> ∅))))) in
  jwt_encode payload SECRET_KEY ALGORITHM.

(** Python truthiness of [payload.get("admin")]. *)
Definition truthy (o : option jvalue) : bool :=
  match o with
  | None => false
  | Some (JBool b) => b
  | Some (JInt z) => negb (z =? 0)
  | Some (JStr s) => negb (String.eqb s EmptyString)
  end.

Definition verify_admin_token (now : Z) (t : token) (admin_key : string)
  : bool :=
  match jwt_decode now t SECRET_KEY [ALGORITHM] with
  | inr _ => false
  | inl payload =>
      if negb (bool_decide (payload !! "token_type" = Some (JStr "admin")))
      then false
      else if negb (truthy (payload !! "admin")) then false
      else
        let expected_hash := hash_string admin_key in
        if negb (bool_decide
                   (payload !! "admin_key_hash" = Some (JStr expected_hash)))
        then false
        else true
  end.

(** ** database.py *)

Definition get_default {A} (o : option A) (d : A) : A :=
  match o with Some x => x | None => d end.

(** [json.load] of the database file: a truncated document is a
    [JSONDecodeError]. *)
Definition json_load (c : db_content) : option (gmap string media_record) :=
  match c with
  | Document d => Some d
  | Truncated _ _ => None
  end.

Definition _init_database (w : world) : world :=
  match db_file w with
  | Some _ => w
  | None => set_db_file w (Some (Document ∅))
  end.

Definition _load_database (w : world) : gmap string media_record :=
  match db_file w with
  | None => ∅
  | Some c => get_default (json_load c) ∅
  end.

(** The restore step of the [except Exception] branch of [_save_database]. *)
Definition restore_backup (w : world) : world :=
  match backup_file w with
  | Some b => set_backup_file (set_db_file w (Some b)) None
  | None => w
  end.

Definition _save_database (w : world) (data : gmap string media_record)
    (f : fault) : world * outcome :=
  (* if os.path.exists(self.db_path): os.rename(self.db_path, backup_path) *)
  match
    match db_file w with
    | Some c =>
        match f with
        | Halt AtRename => inr (w, Stopped)
        | Raise AtRename => inr (w, Raised)
        | _ => inl (set_backup_file (set_db_file w None) (Some c))
        end
    | None => inl w
    end
  with
  | inr r => r
  | inl w1 =>
      (* with open(self.db_path, 'w') as f: json.dump(data, f, ...) *)
      match f with
      | Halt AtRename | Halt AtOpen => (w1, Stopped)
      | Raise AtOpen => (restore_backup w1, Raised)
      | Halt (AtDump k) => (set_db_file w1 (Some (Truncated data k)), Stopped)
      | Raise (AtDump k) =>
          (restore_backup (set_db_file w1 (Some (Truncated data k))), Raised)
      | _ =>
          let w2 := set_db_file w1 (Some (Document data)) in
          (* if os.path.exists(backup_path): os.remove(backup_path) *)
          match backup_file w2 with
          | Some _ =>
              match f with
              | Halt AtRemove => (w2, Stopped)
              | Raise AtRemove => (restore_backup w2, Raised)
              | _ => (set_backup_file w2 None, Returned)
              end
          | None => (w2, Returned)
          end
      end
  end.

Definition store_video (w : world) (now : Z) (public_id : string)
    (video_data : media_record) : world :=
  let db_data := _load_database w in
  let video_data := set_created_at video_data (Some now) in
  let video_data := set_updated_at video_data (Some now) in
  fst (_save_database w (<[public_id := video_data]> db_data) NoFault).

Definition get_video (w : world) (public_id : string) : option media_record :=
  _load_database w !! public_id.

Definition update_video (w : world) (now : Z) (public_id : string)
    (video_data : media_record) : world * bool :=
  let db_data := _load_database w in
  match db_data !! public_id with
  | Some _ =>
      let video_data := set_updated_at video_data (Some now) in
      (fst (_save_database w (<[public_id := video_data]> db_data) NoFault),
       true)
  | None => (w, false)
  end.

Definition delete_video (w : world) (public_id : string) : world * bool :=
  let db_data := _load_database w in
  match db_data !! public_id with
  | Some _ =>
      (fst (_save_database w (delete public_id db_data) NoFault), true)
  | None => (w, false)
  end.

(** ** File-system calls on the media tree *)

Definition resolve (p : string) : string := abspath cwd p.

Definition exists_ (w : world) (p : string) : bool :=
  bool_decide (is_Some (tree w !! resolve p)).

(** [os.makedirs(p, exist_ok=True)]. *)
Definition makedirs (w : world) (p : string) : world :=
  match tree w !! resolve p with
  | Some _ => w
  | None => set_tree w (<[resolve p := Dir]> (tree w))
  end.

Definition write_file (w : world) (p content : string) : world :=
  set_tree w (<[resolve p := File content]> (tree w)).

Definition remove (w : world) (p : string) : world :=
  set_tree w (delete (resolve p) (tree w)).

(** [q] is the directory [d] or lies below it. *)
Definition inside (d q : string) : bool :=
  String.eqb q d || startswith q (d +:+ "/").

Definition rmtree (w : world) (p : string) : world :=
  set_tree w
    (filter (fun kv : string * node => inside (resolve p) kv.1 = false)
       (tree w)).

Definition read_text (w : world) (p : string) : string :=
  match tree w !! resolve p with
  | Some (File content) => content
  | _ => EmptyString
  end.

(** The text of a token as it travels in a URL. *)
Definition token_text (t : token) : string :=
  match t with
  | Malformed raw => raw
  | Jws alg payload signature => jws_compact alg payload signature
  end.

(** ** utils.py: the encoder *)

Definition segment_filename (output_dir : string) (i : nat) : string :=
  path_join output_dir ("segment" +:+ pretty i +:+ ".ts").

(** [generate_hls(video_path, output_dir)]: the playlist path, or the
    message of the exception raised. *)
Definition generate_hls (w : world) (run : encoder_run)
    (video_path output_dir : string) : world * (string + string) :=
  let w := makedirs w output_dir in
  let playlist_path := path_join output_dir "playlist.m3u8" in
  let w :=
    foldr (fun f w => write_file w f.1 f.2) w
      (imap (fun i c => (segment_filename output_dir i, c)) (segments run)) in
  let w :=
    match playlist run with
    | Some c => write_file w playlist_path c
    | None => w
    end in
  match stderr run with
  | None => (w, inl playlist_path)
  | Some e => (w, inr ("FFmpeg error: " +:+ e))
  end.

(** ** main.py *)

Definition MEDIA_ROOT : string := "media".
Definition HLS_ROOT : string := path_join MEDIA_ROOT "hls".

Definition rewrite_line (media_id auth_token line : string) : string :=
  let line := strip line in
  if endswith line ".ts" then
    let segment_name := List.last (split "/" line) EmptyString in
    let new_line :=
      "/stream/" +:+ media_id +:+ "/" +:+ segment_name
      +:+ "?token=" +:+ auth_token in
    new_line +:+ NL
  else line +:+ NL.

(** The list [new_lines] built by the loop. *)
Definition rewrite_lines (media_id auth_token : string) (lines : list string)
  : list string :=
  map (rewrite_line media_id auth_token) lines.

(** [rewrite_playlist_with_auth_urls], on the raw text of the playlist. *)
Definition rewrite_playlist_with_auth_urls (raw media_id auth_token : string)
  : string :=
  let lines := readlines raw in
  concat_lines (rewrite_lines media_id auth_token lines).

(** The clock is read once per request ([now]); [internal_media_id],
    [public_media_id], [access_key'] and [admin_key'] are the four
    [uuid.uuid4().hex] draws and [token_id] the token's [jti]. *)
Definition upload_media (w : world) (now : Z) (run : encoder_run)
    (internal_media_id public_media_id access_key' admin_key' token_id : string)
    (base_url media : string) (expiry_minutes' : Z) : response * world :=
  let media_path := path_join HLS_ROOT (internal_media_id +:+ ".mp4") in
  let hls_dir := path_join HLS_ROOT internal_media_id in
  let w := makedirs w hls_dir in
  let w := write_file w media_path media in
  let finally (w : world) :=
    if exists_ w media_path then remove w media_path else w in
  match generate_hls w run media_path hls_dir with
  | (w, inr e) =>
      let w := rmtree w hls_dir in
      (HTTPException 500 ("Encoding failed: " +:+ e +:+ "!"), finally w)
  | (w, inl _) =>
      let w := finally w in
      let media_data :=
        MediaRecord public_media_id internal_media_id access_key'
          (Some admin_key') now (Some expiry_minutes') None None None None in
      let w := store_video w now public_media_id media_data in
      let access_token :=
        create_access_token now token_id public_media_id access_key'
          expiry_minutes' in
      (Ok (UploadBody public_media_id access_token admin_key'
             (base_url +:+ "stream/" +:+ public_media_id
              +:+ "/playlist.m3u8?token=" +:+ token_text access_token)
             expiry_minutes'), w)
  end.

Definition refresh_access_token (w : world) (now : Z) (token_id : string)
    (base_url media_id admin_key' : string) (expiry_minutes' : Z)
  : response * world :=
  match get_video w media_id with
  | None => (HTTPException 404 "Media not found!", w)
  | Some media_data =>
      if negb (bool_decide (admin_key media_data = Some admin_key'))
      then (HTTPException 403 "Invalid admin key!", w)
      else
        let hls_dir := path_join HLS_ROOT (internal_id media_data) in
        let playlist_path := path_join hls_dir "playlist.m3u8" in
        if negb (exists_ w playlist_path)
        then (HTTPException 404 "Media files not found!", w)
        else
          let access_token :=
            create_access_token now token_id media_id
              (access_key media_data) expiry_minutes' in
          let media_data :=
            set_expiry_minutes media_data (Some expiry_minutes') in
          let media_data := set_last_token_refresh media_data (Some now) in
          let w := fst (update_video w now media_id media_data) in
          (Ok (TokenBody media_id access_token
                 (base_url +:+ "stream/" +:+ media_id
                  +:+ "/playlist.m3u8?token=" +:+ token_text access_token)
                 expiry_minutes'), w)
  end.

Definition get_playlist (w : world) (now : Z) (media_id : string)
    (access_token : token) : response :=
  match get_video w media_id with
  | None => HTTPException 404 "Media not found!"
  | Some media_data =>
      if negb (verify_access_token now access_token media_id
                 (access_key media_data))
      then HTTPException 403 "Invalid or expired access token!"
      else
        let playlist_path :=
          path_join3 HLS_ROOT (internal_id media_data) "playlist.m3u8" in
        if negb (exists_ w playlist_path)
        then HTTPException 404 "Playlist not found!"
        else
          Ok (PlaylistBody
                (rewrite_playlist_with_auth_urls (read_text w playlist_path)
                   media_id (token_text access_token)))
  end.

(** The names the string checks of [get_segment] refuse. *)
Definition bad_segment_name (segment_name : string) : Prop :=
  endswith segment_name ".ts" = false
  \/ contains segment_name "/" = true
  \/ contains segment_name ".." = true.

(** Lines 149 to 163 of [get_segment]: name validation, canonicalisation and
    lookup of the segment of the resource stored under [internal_id']. *)
Definition resolve_segment (w : world) (internal_id' segment_name : string)
  : response :=
  if negb (endswith segment_name ".ts") || contains segment_name "/"
     || contains segment_name ".."
  then HTTPException 400 "Invalid segment name!"
  else
    let segment_path := path_join3 HLS_ROOT internal_id' segment_name in
    let abs_hls_dir := abspath cwd (path_join HLS_ROOT internal_id') in
    let norm_segment_path := abspath cwd (normpath segment_path) in
    if negb (startswith norm_segment_path (abs_hls_dir +:+ "/"))
    then HTTPException 400 "Invalid segment path!"
    else if negb (exists_ w norm_segment_path)
    then HTTPException 404 "Segment not found"
    else Ok (FileBody norm_segment_path).

Definition get_segment (w : world) (now : Z) (media_id segment_name : string)
    (access_token : token) : response :=
  match get_video w media_id with
  | None => HTTPException 404 "Media not found!"
  | Some media_data =>
      if negb (verify_access_token now access_token media_id
                 (access_key media_data))
      then HTTPException 403 "Invalid or expired access token!"
      else resolve_segment w (internal_id media_data) segment_name
  end.

Definition delete_media (w : world) (media_id admin_key' : string)
  : response * world :=
  match get_video w media_id with
  | None => (HTTPException 404 "Media not found!", w)
  | Some media_data =>
      if negb (bool_decide (admin_key media_data = Some admin_key'))
      then (HTTPException 403 "Invalid admin key!", w)
      else
        let contents := _load_database w in
        let contents := delete media_id contents in
        let w := fst (_save_database w contents NoFault) in
        let hls_dir := path_join HLS_ROOT (internal_id media_data) in
        let w := if exists_ w hls_dir then rmtree w hls_dir else w in
        (Ok (MessageBody "Media successfully deleted!"), w)
  end.

Definition get_media_info (w : world) (media_id admin_key' : string)
  : response * world :=
  match get_video w media_id with
  | None => (HTTPException 404 "Media not found!", w)
  | Some media_data =>
      if negb (bool_decide (admin_key media_data = Some admin_key'))
      then (HTTPException 403 "Invalid admin key!", w)
      else
        (Ok (InfoBody media_id (upload_time media_data)
               (get_default (expiry_minutes media_data) 60)
               (last_token_refresh media_data) (created_at media_data)
               (updated_at media_data)), w)
  end.

Definition extend_media_expiry (w : world) (now : Z)
    (media_id admin_key' : string) (additional_minutes : Z)
  : response * world :=
  match get_video w media_id with
  | None => (HTTPException 404 "Media not found!", w)
  | Some media_data =>
      if negb (bool_decide (admin_key media_data = Some admin_key'))
      then (HTTPException 403 "Invalid admin key!", w)
      else
        let current_expiry := get_default (expiry_minutes media_data) 60 in
        let new_expiry := current_expiry + additional_minutes in
        let new_expiry := Z.min new_expiry 10080 in
        let media_data := set_expiry_minutes media_data (Some new_expiry) in
        let media_data := set_expiry_extended_at media_data (Some now) in
        let w := fst (update_video w now media_id media_data) in
        (Ok (ExtendBody media_id current_expiry new_expiry
               (new_expiry - current_expiry)), w)
  end.

(** The four operations gated by the admin key, and their dispatch. *)
Inductive admin_op :=
| RefreshToken (token_id base_url : string) (expiry_minutes' : Z)
| DeleteMedia
| MediaInfo
| ExtendExpiry (additional_minutes : Z).

Definition run_admin_op (op : admin_op) (w : world) (now : Z)
    (media_id admin_key' : string) : response * world :=
  match op with
  | RefreshToken token_id base_url expiry_minutes' =>
      refresh_access_token w now token_id base_url media_id admin_key'
        expiry_minutes'
  | DeleteMedia => delete_media w media_id admin_key'
  | MediaInfo => get_media_info w media_id admin_key'
  | ExtendExpiry additional_minutes =>
      extend_media_expiry w now media_id admin_key' additional_minutes
  end.

(** ** utils.py: token format check *)

(** [validate_token_format(token)] on [None], a string, an integer or a
    boolean: a falsy value or a value that is not a string is refused, and a
    string must split at its dots into three parts. *)
Definition validate_token_format (token : option jvalue) : bool :=
  match token with
  | Some (JStr s) =>
      if String.eqb s EmptyString then false
      else Nat.eqb (length (split "." s)) 3
  | _ => false
  end.

(** The number of occurrences of [c] in [s]. *)
Fixpoint count_char (c : ascii) (s : string) : nat :=
  match s with
  | EmptyString => O
  | String a r => ((if Ascii.eqb a c then 1 else 0) + count_char c r)%nat
  end.

(** ** database.py: maintenance *)

Inductive py_error :=
| NameError (name : string).

(** The binding of the name [timedelta] in the globals of [database.py]:
    the module imports [datetime] alone, so the name is unbound. *)
Definition database_timedelta : option (Z -> Z) := None.

(** The body of the loop of [cleanup_expired_videos], on one item. A
    record's [upload_time] always parses, so the [except (ValueError,
    KeyError)] clause never applies; looking up an unbound global raises
    [NameError], which that clause does not catch and which ends the loop. *)
Definition cleanup_step (current_time : Z) (acc : list string + py_error)
    (item : string * media_record) : list string + py_error :=
  match acc with
  | inr e => inr e
  | inl videos_to_remove =>
      let upload_time := upload_time item.2 in
      let expiry_minutes := get_default (expiry_minutes item.2) 60 in
      match database_timedelta with
      | None => inr (NameError "timedelta")
      | Some timedelta =>
          if upload_time + timedelta expiry_minutes <? current_time
          then inl (videos_to_remove ++ [item.1])%list
          else inl videos_to_remove
      end
  end.

Definition cleanup_scan (current_time : Z)
    (items : list (string * media_record)) : list string + py_error :=
  foldl (cleanup_step current_time) (inl []) items.

Definition cleanup_expired_videos (w : world) (current_time : Z)
  : world * (nat + py_error) :=
  let db_data := _load_database w in
  match cleanup_scan current_time (map_to_list db_data) with
  | inr e => (w, inr e)
  | inl videos_to_remove =>
      let expired_count := length videos_to_remove in
      let db_data := foldl (fun m k => delete k m) db_data videos_to_remove in
      if Nat.ltb 0 expired_count
      then ((_save_database w db_data NoFault).1, inl expired_count)
      else (w, inl expired_count)
  end.

(** ** Notions used to state the properties of paths and lines *)

(** A path component that [normpath] keeps as it is: not empty, not ["."],
    not [".."], and free of ["/"]. *)
Definition plain_component (c : string) : bool :=
  negb (String.eqb c EmptyString) && negb (String.eqb c ".")
  && negb (String.eqb c "..") && negb (has_char "/" c).

(** The absolute path with the given components; [os.getcwd()] returns such
    a path, with plain components. *)
Definition root_path (comps : list string) : string :=
  "/" +:+ join "/" comps.

(** Decimal digits. *)
Definition is_digit (c : ascii) : bool :=
  let n := nat_of_ascii c in ((48 <=? n) && (n <=? 57))%nat.

Fixpoint all_digits (s : string) : bool :=
  match s with
  | EmptyString => true
  | String c r => is_digit c && all_digits r
  end.

(** The text is empty or starts with a character that is no whitespace. *)
Definition head_not_space (s : string) : Prop :=
  match s with
  | EmptyString => True
  | String c _ => isspace c = false
  end.

(** * Properties *)

(** ** Token codec *)

Lemma create_access_token_unfold now token_id media_id key m :
  create_access_token now token_id media_id key m =
  Jws ALGORITHM (access_payload now token_id media_id key m)
    (jws_sign ALGORITHM (generate_signing_key SECRET_KEY key)
       (access_payload now token_id media_id key m)).
Proof. reflexivity. Qed.

Lemma access_payload_lookups now token_id media_id key m :
  let p := access_payload now token_id media_id key m in
  p !! "token_type" = Some (JStr "access")
  /\ p !! "media_id" = Some (JStr media_id)
  /\ p !! "access_key_hash" = Some (JStr (hash_string key))
  /\ p !! "iat" = Some (JInt now)
  /\ p !! "exp" = Some (JInt (now + 60 * m)).
Proof. unfold access_payload. repeat split; by simplify_map_eq. Qed.

(** A token decodes under the key and algorithm it was encoded with exactly
    when its time claims admit the clock reading. *)
Lemma jwt_decode_encode now payload key :
  jwt_decode now (jwt_encode payload key ALGORITHM) key [ALGORITHM] =
  match validate_iat payload now with
  | Some e => inr e
  | None => match validate_exp payload now with
            | Some e => inr e
            | None => inl payload
            end
  end.
Proof.
  unfold jwt_decode, jwt_encode.
  rewrite bool_decide_eq_true_2 by constructor.
  by rewrite String.eqb_refl.
Qed.

(** Whatever else holds, a payload that [verify_access_token] accepts names
    the expected resource and has kind ["access"]. *)
Lemma verify_access_token_true_inv now alg payload signature id key :
  verify_access_token now (Jws alg payload signature) id key = true ->
  payload !! "token_type" = Some (JStr "access")
  /\ payload !! "media_id" = Some (JStr id)
  /\ validate_exp payload now = None.
Proof.
  unfold verify_access_token, jwt_decode.
  repeat (case_match; simplify_eq/=; try done).
  repeat match goal with
         | H : negb (bool_decide _) = false |- _ =>
             apply negb_false_iff, bool_decide_eq_true_1 in H
         end.
  done.
Qed.

(** Before its expiry, and not before its issue where PyJWT rejects a future
    [iat], an issued token decodes to its payload. *)
Lemma decode_issued_token (issued_at now : Z) (token_id media_id key : string)
    (m : Z) :
  issued_at <= now \/ iat_future_rejected = false ->
  now < issued_at + 60 * m ->
  jwt_decode now (create_access_token issued_at token_id media_id key m)
    (generate_signing_key SECRET_KEY key) [ALGORITHM]
  = inl (access_payload issued_at token_id media_id key m).
Proof.
  intros Hissued Hnow. unfold create_access_token.
  rewrite jwt_decode_encode.
  destruct (access_payload_lookups issued_at token_id media_id key m)
    as (_ & _ & _ & Hiat & Hexp).
  unfold validate_iat, validate_exp. rewrite Hiat, Hexp. simpl.
  replace (iat_future_rejected && (now <? issued_at)) with false.
  - by replace (issued_at + 60 * m <=? now) with false
      by (symmetry; apply Z.leb_gt; lia).
  - symmetry. destruct Hissued as [Hle | ->]; [|done].
    apply andb_false_intro2, Z.ltb_ge. lia.
Qed.

(** C1. Round trip of the token codec: for every resource identity, access
    key and validity [m] in [1, 10080], the token issued at [issued_at]
    verifies against the same identity and key at every clock reading
    before [issued_at] plus [m] minutes; where the installed PyJWT rejects
    an [iat] in the future, the reading is not earlier than the issue. *)
Theorem access_token_round_trip
    (issued_at now : Z) (token_id media_id key : string) (m : Z) :
  1 <= m <= 10080 ->
  issued_at <= now \/ iat_future_rejected = false ->
  now < issued_at + 60 * m ->
  verify_access_token now
    (create_access_token issued_at token_id media_id key m) media_id key
  = true.
Proof.
  intros _ Hissued Hnow. unfold verify_access_token.
  rewrite decode_issued_token by done.
  destruct (access_payload_lookups issued_at token_id media_id key m)
    as (Hty & Hid & Hhash & _).
  rewrite Hty, Hid, Hhash.
  by rewrite !bool_decide_eq_true_2.
Qed.

(** C2. Mandatory subject and kind checks: a token issued for resource [A]
    is rejected when verified for a different resource [B], whatever the two
    access keys are, equal or not; every well-formed token whose kind is
    ["admin"], or anything else than ["access"], is rejected, however it is
    signed and whatever its expiry; in particular every output of
    [create_admin_token] is. *)
Theorem subject_and_kind_checks :
  (forall issued_at now token_id A B keyA keyB m,
      A <> B ->
      verify_access_token now
        (create_access_token issued_at token_id A keyA m) B keyB = false)
  /\ (forall now alg payload signature B keyB,
        payload !! "token_type" = Some (JStr "admin") ->
        verify_access_token now (Jws alg payload signature) B keyB = false)
  /\ (forall now alg payload signature B keyB,
        payload !! "token_type" <> Some (JStr "access") ->
        verify_access_token now (Jws alg payload signature) B keyB = false)
  /\ (forall issued_at now token_id admin_key' hours B keyB,
        verify_access_token now
          (create_admin_token issued_at token_id admin_key' hours) B keyB
        = false).
Proof.
  split; [|split; [|split]].
  - intros issued_at now token_id A B keyA keyB m Hne.
    apply not_true_is_false. rewrite create_access_token_unfold.
    intros (_ & Hid & _)%verify_access_token_true_inv.
    destruct (access_payload_lookups issued_at token_id A keyA m)
      as (_ & Hid' & _).
    congruence.
  - intros now alg payload signature B keyB Hty.
    apply not_true_is_false.
    intros (Hty' & _)%verify_access_token_true_inv. congruence.
  - intros now alg payload signature B keyB Hty.
    apply not_true_is_false.
    by intros (Hty' & _)%verify_access_token_true_inv.
  - intros issued_at now token_id admin_key' hours B keyB.
    apply not_true_is_false. unfold create_admin_token, jwt_encode.
    intros (Hty' & _)%verify_access_token_true_inv.
    by simplify_map_eq.
Qed.

(** C3. Expiry boundary: a token issued at [issued_at] with validity [m]
    minutes is rejected at every clock reading later than [issued_at] plus
    [m] minutes, for any expected identity and key; one second before
    [issued_at] plus [m] minutes it is accepted for its own identity and
    key. *)
Theorem expiry_boundary
    (issued_at : Z) (token_id media_id key : string) (m : Z) :
  1 <= m <= 10080 ->
  (forall now id' key',
      issued_at + 60 * m < now ->
      verify_access_token now
        (create_access_token issued_at token_id media_id key m) id' key'
      = false)
  /\ verify_access_token (issued_at + 60 * m + 1)
       (create_access_token issued_at token_id media_id key m) media_id key
     = false
  /\ verify_access_token (issued_at + 60 * m - 1)
       (create_access_token issued_at token_id media_id key m) media_id key
     = true.
Proof.
  intros Hm.
  assert (Hlate : forall now id' key',
      issued_at + 60 * m < now ->
      verify_access_token now
        (create_access_token issued_at token_id media_id key m) id' key'
      = false).
  { intros now id' key' Hnow. apply not_true_is_false.
    rewrite create_access_token_unfold.
    intros (_ & _ & Hexp)%verify_access_token_true_inv.
    destruct (access_payload_lookups issued_at token_id media_id key m)
      as (_ & _ & _ & _ & Hexp').
    unfold validate_exp in Hexp. rewrite Hexp' in Hexp. simpl in Hexp.
    destruct (Z.leb_spec (issued_at + 60 * m) now); [done | lia]. }
  split; [exact Hlate | split].
  - apply Hlate. lia.
  - unfold verify_access_token.
    rewrite decode_issued_token by lia.
    destruct (access_payload_lookups issued_at token_id media_id key m)
      as (Hty & Hid & Hhash & _).
    rewrite Hty, Hid, Hhash.
    by rewrite !bool_decide_eq_true_2.
Qed.

(** ** Segment resolution *)

Example normpath_collapses :
  normpath "media/hls/../x//y/./z.ts" = "media/x/y/z.ts"
  /\ normpath "a/../.." = ".."
  /\ normpath "//a/../.." = "//"
  /\ normpath "/../a" = "/a".
Proof. repeat split. Qed.

Example abspath_sample :
  abspath "/srv/app" "media/hls/ab/segment3.ts"
  = "/srv/app/media/hls/ab/segment3.ts"
  /\ abspath "/srv/app" "/srv/app/media/hls/ab/../cd/x.ts"
     = "/srv/app/media/hls/cd/x.ts".
Proof. repeat split. Qed.

Lemma resolve_segment_bad_name w iid name :
  bad_segment_name name ->
  resolve_segment w iid name = HTTPException 400 "Invalid segment name!".
Proof.
  unfold bad_segment_name, resolve_segment.
  intros [-> | [-> | ->]]; simpl; by rewrite ?orb_true_r.
Qed.

Lemma get_segment_bad_name w now media_id name access_token :
  bad_segment_name name ->
  exists status_code detail,
    get_segment w now media_id name access_token
    = HTTPException status_code detail
    /\ (status_code = 404 \/ status_code = 403 \/ status_code = 400).
Proof.
  intros Hbad. unfold get_segment.
  destruct (get_video w media_id) as [media_data|]; [|by eauto 6].
  destruct (verify_access_token _ _ _ _); simpl; [|by eauto 6].
  rewrite resolve_segment_bad_name by done. by eauto 6.
Qed.

Lemma resolve_segment_served w iid name p :
  resolve_segment w iid name = Ok (FileBody p) ->
  ~ bad_segment_name name
  /\ p = abspath cwd (normpath (path_join3 HLS_ROOT iid name))
  /\ startswith p (abspath cwd (path_join HLS_ROOT iid) +:+ "/") = true
  /\ exists_ w p = true.
Proof.
  unfold resolve_segment, bad_segment_name.
  destruct (endswith name ".ts") eqn:E1; simpl; [|done].
  destruct (contains name "/") eqn:E2; simpl; [done|].
  destruct (contains name "..") eqn:E3; simpl; [done|].
  destruct (startswith _ _) eqn:E4; simpl; [|done].
  destruct (exists_ w _) eqn:E5; simpl; [|done].
  intros [= <-]. split; [|done].
  intros [? | [? | ?]]; congruence.
Qed.

Lemma resolve_segment_valid w iid name :
  ~ bad_segment_name name ->
  let p := abspath cwd (normpath (path_join3 HLS_ROOT iid name)) in
  startswith p (abspath cwd (path_join HLS_ROOT iid) +:+ "/") = true ->
  resolve_segment w iid name =
  if exists_ w p then Ok (FileBody p)
  else HTTPException 404 "Segment not found".
Proof.
  intros Hok p Hin. unfold resolve_segment.
  unfold bad_segment_name in Hok.
  destruct (endswith name ".ts") eqn:E1; [|by destruct Hok; left].
  destruct (contains name "/") eqn:E2; [by destruct Hok; right; left|].
  destruct (contains name "..") eqn:E3; [by destruct Hok; right; right|].
  simpl. fold p. rewrite Hin. simpl. by destruct (exists_ w p).
Qed.

Lemma named_inputs_bad name :
  name = "../secret.ts" \/ name = "a/b.ts" \/ name = "x.mp4" ->
  bad_segment_name name.
Proof.
  intros [-> | [-> | ->]]; unfold bad_segment_name;
    [right; left | right; left | left]; reflexivity.
Qed.

(** C4. Segment path safety. In lines 149 to 163: a name that does not end
    in [.ts], contains a path separator or contains a parent-directory token
    is answered with BadRequest; so is a name whose canonical joined path is
    not strictly inside the canonical storage directory of the resource; a
    file is served only for a name that passes both checks and whose
    canonical path exists, and a name that passes both checks, such as
    [segment3.ts], is answered with NotFound when that path does not exist.
    In the handler: once the record is found and the token verifies, a
    refused name is answered with BadRequest, and in every state a refused
    name, [../secret.ts], [a/b.ts] and [x.mp4] among them, is answered with
    an error. *)
Theorem segment_path_safety :
  (forall w iid name,
      bad_segment_name name ->
      resolve_segment w iid name = HTTPException 400 "Invalid segment name!")
  /\ (forall w iid name,
        startswith (abspath cwd (normpath (path_join3 HLS_ROOT iid name)))
          (abspath cwd (path_join HLS_ROOT iid) +:+ "/") = false ->
        exists detail, resolve_segment w iid name = HTTPException 400 detail)
  /\ (forall w iid name p,
        resolve_segment w iid name = Ok (FileBody p) ->
        ~ bad_segment_name name
        /\ p = abspath cwd (normpath (path_join3 HLS_ROOT iid name))
        /\ startswith p (abspath cwd (path_join HLS_ROOT iid) +:+ "/") = true
        /\ exists_ w p = true)
  /\ (forall w iid name,
        ~ bad_segment_name name ->
        let p := abspath cwd (normpath (path_join3 HLS_ROOT iid name)) in
        startswith p (abspath cwd (path_join HLS_ROOT iid) +:+ "/") = true ->
        resolve_segment w iid name =
        if exists_ w p then Ok (FileBody p)
        else HTTPException 404 "Segment not found")
  /\ (forall w iid,
        let p :=
          abspath cwd (normpath (path_join3 HLS_ROOT iid "segment3.ts")) in
        startswith p (abspath cwd (path_join HLS_ROOT iid) +:+ "/") = true ->
        resolve_segment w iid "segment3.ts" =
        if exists_ w p then Ok (FileBody p)
        else HTTPException 404 "Segment not found")
  /\ (forall w now media_id access_token name r,
        bad_segment_name name ->
        get_video w media_id = Some r ->
        verify_access_token now access_token media_id (access_key r) = true ->
        get_segment w now media_id name access_token
        = HTTPException 400 "Invalid segment name!")
  /\ (forall w now media_id access_token name,
        bad_segment_name name ->
        exists status_code detail,
          get_segment w now media_id name access_token
          = HTTPException status_code detail
          /\ (status_code = 404 \/ status_code = 403 \/ status_code = 400))
  /\ (forall w iid now media_id access_token name,
        name = "../secret.ts" \/ name = "a/b.ts" \/ name = "x.mp4" ->
        resolve_segment w iid name = HTTPException 400 "Invalid segment name!"
        /\ exists status_code detail,
             get_segment w now media_id name access_token
             = HTTPException status_code detail).
Proof.
  split; [|split; [|split; [|split; [|split; [|split; [|split]]]]]].
  - intros. by apply resolve_segment_bad_name.
  - intros w iid name Hout. unfold resolve_segment.
    destruct (_ || _ || _); [by eauto|].
    rewrite Hout. simpl. by eauto.
  - apply resolve_segment_served.
  - apply resolve_segment_valid.
  - intros w iid p Hin. apply resolve_segment_valid; [|done].
    intros [H | [H | H]]; discriminate H.
  - intros w now media_id access_token name r Hbad Hr Hverify.
    unfold get_segment. rewrite Hr, Hverify. simpl.
    by apply resolve_segment_bad_name.
  - intros. by apply get_segment_bad_name.
  - intros w iid now media_id access_token name Hname%named_inputs_bad.
    split.
    + by apply resolve_segment_bad_name.
    + destruct (get_segment_bad_name w now media_id name access_token)
        as (c & d & ? & _); eauto.
Qed.

(** ** Metadata store *)

Lemma init_database_exists w : is_Some (db_file (_init_database w)).
Proof.
  unfold _init_database. destruct (db_file w) eqn:E; simpl; eauto.
Qed.

Lemma load_save_ok w data :
  _load_database (_save_database w data NoFault).1 = data.
Proof.
  unfold _save_database, _load_database.
  destruct w as [[c|] [b|] t]; reflexivity.
Qed.

Lemma tree_save w data f : tree (_save_database w data f).1 = tree w.
Proof.
  unfold _save_database, restore_backup.
  destruct w as [[c|] [b|] t], f as [|[]|[]]; reflexivity.
Qed.

(** C5, as amended. From a state in which the database file exists (which
    [_init_database] establishes and every save that returns or raises
    keeps): if [_save_database] returns, a subsequent load yields the new
    mapping; if a call inside it raises an exception, the backup is restored
    and a load yields the old mapping; if execution stops with no handler run,
    a load yields the old, the new or the empty mapping. A truncated document
    is never returned. *)
Theorem save_database_atomicity w data f :
  is_Some (db_file w) ->
  let w' := (_save_database w data f).1 in
  match (_save_database w data f).2 with
  | Returned => _load_database w' = data /\ is_Some (db_file w')
  | Raised => _load_database w' = _load_database w /\ is_Some (db_file w')
  | Stopped =>
      _load_database w' = _load_database w
      \/ _load_database w' = data
      \/ _load_database w' = ∅
  end.
Proof.
  intros [c Hc]. destruct w as [db b t]. simpl in Hc. subst db.
  unfold _save_database, _load_database, restore_backup.
  destruct f as [|[]|[]]; simpl; eauto.
Qed.

(** ** Admin operations *)

Lemma get_video_update w now media_id md id2 :
  get_video (update_video w now media_id md).1 id2 =
  match get_video w media_id with
  | Some _ =>
      if decide (media_id = id2) then Some (set_updated_at md (Some now))
      else get_video w id2
  | None => get_video w id2
  end.
Proof.
  unfold update_video, get_video.
  destruct (_load_database w !! media_id) eqn:E; simpl; [|done].
  rewrite load_save_ok. apply lookup_insert.
Qed.

Lemma tree_update w now media_id md :
  tree (update_video w now media_id md).1 = tree w.
Proof.
  unfold update_video. destruct (_ !! _); simpl; [apply tree_save | done].
Qed.

(** C7. Extend-expiry arithmetic: on a record whose stored [expiry_minutes]
    is [prev], a call with the record's admin key and [N] in [1, 10080]
    stores [min (prev + N) 10080], which is at most 10080, and answers with
    [prev], that value and their difference. *)
Theorem extend_expiry_arithmetic w now media_id key N r prev :
  get_video w media_id = Some r ->
  expiry_minutes r = Some prev ->
  admin_key r = Some key ->
  1 <= N <= 10080 ->
  let new_expiry := Z.min (prev + N) 10080 in
  (extend_media_expiry w now media_id key N).1
  = Ok (ExtendBody media_id prev new_expiry (new_expiry - prev))
  /\ (exists r',
        get_video (extend_media_expiry w now media_id key N).2 media_id
        = Some r'
        /\ expiry_minutes r' = Some new_expiry)
  /\ new_expiry <= 10080.
Proof.
  intros Hr Hprev Hkey HN new_expiry.
  unfold extend_media_expiry. rewrite Hr, Hkey, Hprev.
  rewrite bool_decide_eq_true_2 by done. simpl.
  split; [done | split; [|subst new_expiry; lia]].
  rewrite get_video_update, Hr. rewrite decide_True by done.
  eexists. split; [done|]. reflexivity.
Qed.

(** C8. Admin gate: for each of the four admin operations, a request for an
    identity absent from the store is answered NotFound whatever admin key
    it carries, and the state is unchanged; a request for a stored record
    with an admin key other than the stored one is answered Forbidden, and
    the state is unchanged; so the state changes only when the keys are
    equal. *)
Theorem admin_gate (op : admin_op) w now media_id key :
  (get_video w media_id = None ->
   run_admin_op op w now media_id key
   = (HTTPException 404 "Media not found!", w))
  /\ (forall r,
        get_video w media_id = Some r ->
        admin_key r <> Some key ->
        run_admin_op op w now media_id key
        = (HTTPException 403 "Invalid admin key!", w))
  /\ ((run_admin_op op w now media_id key).2 <> w ->
      exists r, get_video w media_id = Some r /\ admin_key r = Some key).
Proof.
  assert (H404 : get_video w media_id = None ->
    run_admin_op op w now media_id key
    = (HTTPException 404 "Media not found!", w)).
  { intros Hnone.
    destruct op; simpl;
      unfold refresh_access_token, delete_media, get_media_info,
        extend_media_expiry; by rewrite Hnone. }
  assert (H403 : forall r,
    get_video w media_id = Some r ->
    admin_key r <> Some key ->
    run_admin_op op w now media_id key
    = (HTTPException 403 "Invalid admin key!", w)).
  { intros r Hr Hne.
    destruct op; simpl;
      unfold refresh_access_token, delete_media, get_media_info,
        extend_media_expiry; rewrite Hr;
      by rewrite bool_decide_eq_false_2. }
  split; [done | split; [done|]].
  intros Hchg.
  destruct (get_video w media_id) as [r|] eqn:Hr.
  - destruct (decide (admin_key r = Some key)) as [|Hne]; [by eauto|].
    rewrite (H403 r) in Hchg by done. done.
  - rewrite H404 in Hchg by done. done.
Qed.

(** ** Upload *)

Lemma db_generate_hls w run v o :
  db_file (generate_hls w run v o).1 = db_file w
  /\ backup_file (generate_hls w run v o).1 = backup_file w.
Proof.
  unfold generate_hls.
  assert (Hfold : forall l w0,
    db_file (foldr (fun f w => write_file w f.1 f.2) w0 l) = db_file w0
    /\ backup_file (foldr (fun f w => write_file w f.1 f.2) w0 l)
       = backup_file w0).
  { induction l as [|f l IH]; intros w0; simpl; [done | apply IH]. }
  assert (Hmk : db_file (makedirs w o) = db_file w
                /\ backup_file (makedirs w o) = backup_file w).
  { unfold makedirs. by destruct (_ !! _). }
  destruct (Hfold (imap (fun i c => (segment_filename o i, c)) (segments run))
              (makedirs w o)) as [H1 H2].
  destruct (stderr run), (playlist run); simpl; rewrite ?H1, ?H2; exact Hmk.
Qed.

Lemma generate_hls_outcome w run v o :
  (generate_hls w run v o).2 =
  match stderr run with
  | None => inl (path_join o "playlist.m3u8")
  | Some e => inr ("FFmpeg error: " +:+ e)
  end.
Proof. unfold generate_hls. by destruct (stderr run). Qed.

Lemma exists_false w p : tree w !! resolve p = None -> exists_ w p = false.
Proof.
  intros H. unfold exists_. rewrite H.
  apply bool_decide_eq_false_2. by intros [? ?].
Qed.

Lemma exists_after_cleanup w p :
  exists_ (if exists_ w p then remove w p else w) p = false.
Proof.
  destruct (exists_ w p) eqn:E; [|done].
  unfold exists_, remove. simpl. rewrite lookup_delete_eq.
  apply bool_decide_eq_false_2. by intros [? ?].
Qed.

Lemma inside_refl d : inside d d = true.
Proof. unfold inside. by rewrite String.eqb_refl. Qed.

(** C9. Upload cleanup: when the encoder fails the answer is 500, nothing
    at or below the output directory remains, the metadata store is as it
    was, and the uploaded original is gone; the original is gone after a
    successful upload as well. *)
Theorem upload_cleanup w now run iid pid ak adk tid base_url media em :
  let hls_dir := path_join HLS_ROOT iid in
  let media_path := path_join HLS_ROOT (iid +:+ ".mp4") in
  let result :=
    upload_media w now run iid pid ak adk tid base_url media em in
  (is_Some (stderr run) ->
   (exists detail, result.1 = HTTPException 500 detail)
   /\ (forall q, inside (resolve hls_dir) q = true ->
                 tree result.2 !! q = None)
   /\ exists_ result.2 hls_dir = false
   /\ db_file result.2 = db_file w
   /\ backup_file result.2 = backup_file w
   /\ (forall id, get_video result.2 id = get_video w id))
  /\ exists_ result.2 media_path = false.
Proof.
  intros hls_dir media_path result. subst result.
  unfold upload_media. fold hls_dir media_path.
  set (w0 := write_file (makedirs w hls_dir) media_path media).
  assert (Hdb0 : db_file w0 = db_file w /\ backup_file w0 = backup_file w).
  { unfold w0, write_file, makedirs. by destruct (_ !! _). }
  destruct Hdb0 as [Hdb0 Hbk0]. clearbody w0.
  pose proof (generate_hls_outcome w0 run media_path hls_dir) as Hout.
  destruct (db_generate_hls w0 run media_path hls_dir) as [Hdb Hbk].
  destruct (generate_hls w0 run media_path hls_dir) as [w3 r] eqn:E.
  simpl in Hout, Hdb, Hbk.
  split.
  - intros [e He]. rewrite He in Hout. subst r. simpl.
    assert (Hin : forall q, inside (resolve hls_dir) q = true ->
      tree (if exists_ (rmtree w3 hls_dir) media_path
            then remove (rmtree w3 hls_dir) media_path
            else rmtree w3 hls_dir) !! q = None).
    { intros q Hq.
      assert (tree (rmtree w3 hls_dir) !! q = None) as Hrm.
      { unfold rmtree. simpl. apply map_lookup_filter_None. right.
        intros x _. simpl. by rewrite Hq. }
      destruct (exists_ _ _); [|done].
      unfold remove. simpl. rewrite lookup_delete. by case_decide. }
    assert (Hfiles :
      db_file (if exists_ (rmtree w3 hls_dir) media_path
               then remove (rmtree w3 hls_dir) media_path
               else rmtree w3 hls_dir) = db_file w
      /\ backup_file (if exists_ (rmtree w3 hls_dir) media_path
                      then remove (rmtree w3 hls_dir) media_path
                      else rmtree w3 hls_dir) = backup_file w).
    { destruct (exists_ _ _); simpl; split; congruence. }
    destruct Hfiles as [Hf1 Hf2].
    repeat split; [by eauto | exact Hin | | exact Hf1 | exact Hf2 |].
    + apply exists_false, Hin, inside_refl.
    + intros id. unfold get_video, _load_database. by rewrite Hf1.
  - destruct r as [pl|e]; simpl.
    + unfold exists_, store_video. rewrite tree_save.
      apply (exists_after_cleanup w3 media_path).
    + apply exists_after_cleanup.
Qed.

(** ** Issued tokens and the stored expiry *)

Lemma handlers_agree w w' :
  tree w' = tree w ->
  (forall id, access_key <$> get_video w' id = access_key <$> get_video w id) ->
  (forall id, internal_id <$> get_video w' id
              = internal_id <$> get_video w id) ->
  forall now id segment_name access_token,
    get_playlist w' now id access_token = get_playlist w now id access_token
    /\ get_segment w' now id segment_name access_token
       = get_segment w now id segment_name access_token.
Proof.
  intros Htree Hak Hiid now id segment_name access_token.
  specialize (Hak id). specialize (Hiid id).
  unfold get_playlist, get_segment, resolve_segment, exists_, read_text.
  rewrite Htree.
  destruct (get_video w' id) as [r'|], (get_video w id) as [r|];
    simplify_eq/=; [|done].
  by rewrite Hak, Hiid.
Qed.

Lemma update_keeps_keys w now media_id md r :
  get_video w media_id = Some r ->
  access_key md = access_key r ->
  internal_id md = internal_id r ->
  forall now' id segment_name access_token,
    get_playlist (update_video w now media_id md).1 now' id access_token
    = get_playlist w now' id access_token
    /\ get_segment (update_video w now media_id md).1 now' id segment_name
         access_token
       = get_segment w now' id segment_name access_token.
Proof.
  intros Hr Hak Hiid. apply handlers_agree.
  - apply tree_update.
  - intros id. rewrite get_video_update, Hr.
    case_decide; [subst; rewrite Hr; simpl; by f_equal | done].
  - intros id. rewrite get_video_update, Hr.
    case_decide; [subst; rewrite Hr; simpl; by f_equal | done].
Qed.

(** C10. Stored expiry does not affect issued tokens: [verify_access_token]
    is a function of the token, the expected identity, the access key, the
    configuration and the clock alone; two records that differ only in
    [expiry_minutes] give the same verdict on every token; and after an
    extend-expiry or a refresh-token request, whatever its outcome, the
    playlist and segment handlers answer every request, at every clock
    reading, as they did before. *)
Theorem stored_expiry_does_not_affect_tokens :
  (forall w1 w2 id r1 r2 now access_token,
      get_video w1 id = Some r1 ->
      get_video w2 id = Some r2 ->
      set_expiry_minutes r1 None = set_expiry_minutes r2 None ->
      verify_access_token now access_token id (access_key r1)
      = verify_access_token now access_token id (access_key r2))
  /\ (forall w now0 media_id key N now id segment_name access_token,
        let w' := (extend_media_expiry w now0 media_id key N).2 in
        get_playlist w' now id access_token
        = get_playlist w now id access_token
        /\ get_segment w' now id segment_name access_token
           = get_segment w now id segment_name access_token)
  /\ (forall w now0 token_id base_url media_id key m now id segment_name
             access_token,
        let w' :=
          (refresh_access_token w now0 token_id base_url media_id key m).2 in
        get_playlist w' now id access_token
        = get_playlist w now id access_token
        /\ get_segment w' now id segment_name access_token
           = get_segment w now id segment_name access_token).
Proof.
  split; [|split].
  - intros w1 w2 id r1 r2 now access_token _ _ Heq.
    by replace (access_key r1) with (access_key r2)
      by (destruct r1, r2; simplify_eq/=; done).
  - intros w now0 media_id key N now id segment_name access_token.
    unfold extend_media_expiry.
    destruct (get_video w media_id) as [r|] eqn:Hr; simpl; [|done].
    destruct (negb _); simpl; [done|].
    by apply (update_keeps_keys _ _ _ _ r).
  - intros w now0 token_id base_url media_id key m now id segment_name
      access_token.
    unfold refresh_access_token.
    destruct (get_video w media_id) as [r|] eqn:Hr; simpl; [|done].
    destruct (negb _); simpl; [done|].
    destruct (negb _); simpl; [done|].
    by apply (update_keeps_keys _ _ _ _ r).
Qed.

(** ** Manifest rewriter *)

Lemma keep_lines_concat s : concat_lines (keep_lines s) = s.
Proof.
  induction s as [|c s IH]; [done|]. simpl.
  destruct (Ascii.eqb c LF); simpl; [by rewrite IH|].
  destruct (keep_lines s) as [|l ls]; simpl in *; by rewrite <- IH.
Qed.

(** Reading the lines loses nothing but the carriage returns. *)
Lemma readlines_concat raw :
  concat_lines (readlines raw) = universal_newlines raw.
Proof. apply keep_lines_concat. Qed.

Example readlines_crlf :
  readlines ("a" +:+ String CR NL +:+ NL +:+ "b.ts")
  = ["a" +:+ NL; NL; "b.ts"].
Proof. reflexivity. Qed.

Example rewrite_playlist_sample :
  rewrite_playlist_with_auth_urls
    ("#EXTM3U" +:+ NL +:+ "#EXTINF:10.0," +:+ String CR NL
     +:+ "segment0.ts" +:+ NL +:+ "#EXT-X-ENDLIST")
    "pub1" "T"
  = "#EXTM3U" +:+ NL +:+ "#EXTINF:10.0," +:+ NL
    +:+ "/stream/pub1/segment0.ts?token=T" +:+ NL
    +:+ "#EXT-X-ENDLIST" +:+ NL.
Proof. reflexivity. Qed.

Lemma rstrip_app_space s c :
  isspace c = true -> rstrip (s +:+ String c EmptyString) = rstrip s.
Proof.
  intros Hc. induction s as [|a s IH]; simpl.
  - by rewrite Hc.
  - by rewrite IH.
Qed.

Lemma strip_app_space s c :
  isspace c = true -> strip (s +:+ String c EmptyString) = strip s.
Proof.
  intros Hc. unfold strip. induction s as [|a s IH]; simpl.
  - by rewrite Hc.
  - destruct (isspace a); [exact IH|].
    by apply (rstrip_app_space (String a s)).
Qed.

Lemma has_char_lstrip c s : has_char c s = false -> has_char c (lstrip s) = false.
Proof.
  induction s as [|a s IH]; simpl; [done|].
  intros [? ?]%orb_false_elim. destruct (isspace a); simpl; [by apply IH|].
  by apply orb_false_intro.
Qed.

Lemma has_char_rstrip c s : has_char c s = false -> has_char c (rstrip s) = false.
Proof.
  induction s as [|a s IH]; simpl; [done|].
  intros [Ha Hs]%orb_false_elim. specialize (IH Hs).
  destruct (rstrip s) eqn:E.
  - destruct (isspace a); simpl; [done | by rewrite Ha].
  - simpl in *. by rewrite Ha, IH.
Qed.

Lemma has_char_split c sep s :
  has_char c s = false ->
  Forall (fun part => has_char c part = false) (split sep s).
Proof.
  induction s as [|a s IH]; simpl; [by repeat constructor|].
  intros [Ha Hs]%orb_false_elim. specialize (IH Hs).
  destruct (Ascii.eqb a sep); [by constructor|].
  destruct (split sep s) as [|q qs]; inversion IH; subst;
    constructor; simpl; try done; by rewrite Ha.
Qed.

Lemma has_char_last c (parts : list string) :
  Forall (fun part => has_char c part = false) parts ->
  has_char c (List.last parts EmptyString) = false.
Proof.
  induction 1 as [|q qs Hq Hqs IH]; [done|].
  destruct qs; [done | exact IH].
Qed.

Lemma after_first_skip c a s :
  has_char c a = false -> after_first c (a +:+ s) = after_first c s.
Proof.
  induction a as [|x a IH]; simpl; [done|].
  intros [Hx Ha]%orb_false_elim. rewrite Hx. by apply IH.
Qed.

Lemma split_no_sep sep s : has_char sep s = false -> split sep s = [s].
Proof.
  induction s as [|a s IH]; simpl; [done|].
  intros [Ha Hs]%orb_false_elim. by rewrite Ha, IH.
Qed.

Lemma str_app_cons x (a b : string) : String x a +:+ b = String x (a +:+ b).
Proof. reflexivity. Qed.

Lemma str_app_nil_l (b : string) : EmptyString +:+ b = b.
Proof. reflexivity. Qed.

Lemma has_char_append c a b :
  has_char c (a +:+ b) = has_char c a || has_char c b.
Proof.
  induction a as [|x a IH]; [done|].
  rewrite str_app_cons. simpl. by rewrite IH, orb_assoc.
Qed.

Lemma has_char_app_false c a b :
  has_char c a = false -> has_char c b = false -> has_char c (a +:+ b) = false.
Proof. intros Ha Hb. by rewrite has_char_append, Ha, Hb. Qed.

Lemma before_first_none c s : has_char c s = false -> before_first c s = s.
Proof.
  induction s as [|a s IH]; simpl; [done|].
  intros [Ha Hs]%orb_false_elim. by rewrite Ha, IH.
Qed.

(** The URL the rewriter builds for a chunk line has the query component
    [token={token}], a single parameter, when nothing before the token
    opens a query or a fragment and the token neither separates parameters
    nor opens a fragment. *)
Lemma chunk_url_query media_id segment_name auth_token :
  has_char "?" media_id = false ->
  has_char "#" media_id = false ->
  has_char "?" segment_name = false ->
  has_char "#" segment_name = false ->
  has_char "&" auth_token = false ->
  has_char "#" auth_token = false ->
  let url :=
    "/stream/" +:+ media_id +:+ "/" +:+ segment_name +:+ "?token="
    +:+ auth_token in
  uri_query url = Some ("token=" +:+ auth_token)
  /\ query_params url = ["token=" +:+ auth_token].
Proof.
  intros Hid Hid' Hname Hname' Htok Htok' url.
  assert (Hquery : uri_query url = Some ("token=" +:+ auth_token)).
  { unfold uri_query, url. rewrite before_first_none.
    2:{ repeat (apply has_char_app_false; [done|]). done. }
    rewrite (after_first_skip _ "/stream/") by done.
    rewrite (after_first_skip _ media_id) by done.
    rewrite (after_first_skip _ "/") by done.
    by rewrite (after_first_skip _ segment_name). }
  split; [exact Hquery|].
  unfold query_params. rewrite Hquery.
  apply split_no_sep.
  change (has_char "&" ("token=" +:+ auth_token))
    with (has_char "&" auth_token).
  exact Htok.
Qed.

(** *** The lines of the rewritten text *)

Lemma single_line_inv s :
  single_line s = true -> has_char LF s = false /\ has_char CR s = false.
Proof.
  unfold single_line. intros [H1 H2]%andb_prop.
  by apply negb_true_iff in H1, H2.
Qed.

Lemma universal_newlines_cons c r :
  universal_newlines (String c r)
  = if Ascii.eqb c CR then
      match r with
      | String c' r' =>
          if Ascii.eqb c' LF then String LF (universal_newlines r')
          else String LF (universal_newlines r)
      | EmptyString => String LF EmptyString
      end
    else String c (universal_newlines r).
Proof. reflexivity. Qed.

Lemma has_char_cons c a r :
  has_char c (String a r) = Ascii.eqb a c || has_char c r.
Proof. reflexivity. Qed.

Lemma universal_newlines_no_cr raw :
  has_char CR (universal_newlines raw) = false.
Proof.
  assert (H : forall n s, (String.length s <= n)%nat ->
                          has_char CR (universal_newlines s) = false).
  { induction n as [|n IH]; intros [|c s] Hlen; try done;
      [simpl in Hlen; lia|].
    rewrite universal_newlines_cons.
    destruct (Ascii.eqb c CR) eqn:Hc.
    - destruct s as [|c' s]; [done|].
      destruct (Ascii.eqb c' LF); rewrite has_char_cons;
        apply IH; simpl in *; lia.
    - rewrite has_char_cons, Hc. apply IH. simpl in *. lia. }
  by apply (H (String.length raw)).
Qed.

Lemma universal_newlines_id s :
  has_char CR s = false -> universal_newlines s = s.
Proof.
  induction s as [|c s IH]; simpl; [done|].
  intros [Hc Hs]%orb_false_elim. by rewrite Hc, IH.
Qed.

Lemma keep_lines_has_char c s :
  has_char c s = false ->
  Forall (fun l => has_char c l = false) (keep_lines s).
Proof.
  induction s as [|a s IH]; simpl; [constructor|].
  intros [Ha Hs]%orb_false_elim. specialize (IH Hs).
  destruct (Ascii.eqb a LF).
  - constructor; [|done]. simpl. by rewrite Ha.
  - destruct (keep_lines s) as [|l ls].
    + repeat constructor. simpl. by rewrite Ha.
    + inversion IH as [|? ? Hl Hls]; subst.
      constructor; [|done]. simpl. by rewrite Ha, Hl.
Qed.

Lemma keep_lines_shape s :
  Forall (fun l => exists body, line_body l body) (keep_lines s).
Proof.
  induction s as [|a s IH]; simpl; [constructor|].
  destruct (Ascii.eqb a LF) eqn:Ha.
  - constructor; [|done]. exists EmptyString. split; [done|]. right.
    apply Ascii.eqb_eq in Ha. by subst a.
  - destruct (keep_lines s) as [|l ls].
    + repeat constructor. exists (String a EmptyString).
      split; [|by left]. simpl. by rewrite Ha.
    + inversion IH as [|? ? (body & Hbody & Hl) Hls]; subst.
      constructor; [|done]. exists (String a body). split.
      * simpl. by rewrite Ha, Hbody.
      * destruct Hl as [-> | ->]; [by left | by right].
Qed.

Lemma strip_line_no_lf l body :
  line_body l body -> has_char LF (strip l) = false.
Proof.
  intros [Hbody [-> | ->]].
  - unfold strip. by apply has_char_rstrip, has_char_lstrip.
  - unfold NL. rewrite strip_app_space by done.
    unfold strip. by apply has_char_rstrip, has_char_lstrip.
Qed.

(** Every rewritten line is one line: a text free of line feeds and the
    line feed that ends it. *)
Lemma rewrite_line_body media_id auth_token l :
  has_char LF media_id = false ->
  has_char LF auth_token = false ->
  has_char LF (strip l) = false ->
  exists body,
    has_char LF body = false
    /\ rewrite_line media_id auth_token l = body +:+ NL.
Proof.
  intros Hid Htok Hl. unfold rewrite_line.
  destruct (endswith (strip l) ".ts").
  - eexists. split; [|reflexivity].
    repeat (apply has_char_app_false; try done).
    by apply has_char_last, has_char_split.
  - by exists (strip l).
Qed.

Lemma rewrite_line_no_cr media_id auth_token l :
  has_char CR media_id = false ->
  has_char CR auth_token = false ->
  has_char CR l = false ->
  has_char CR (rewrite_line media_id auth_token l) = false.
Proof.
  intros Hid Htok Hl. unfold rewrite_line.
  assert (Hs : has_char CR (strip l) = false).
  { unfold strip. by apply has_char_rstrip, has_char_lstrip. }
  destruct (endswith (strip l) ".ts").
  - repeat (apply has_char_app_false; try done).
    by apply has_char_last, has_char_split.
  - by apply has_char_app_false.
Qed.

Lemma keep_lines_line body rest :
  has_char LF body = false ->
  keep_lines ((body +:+ NL) +:+ rest) = (body +:+ NL) :: keep_lines rest.
Proof.
  induction body as [|c body IH].
  - intros _. reflexivity.
  - simpl. intros [Hc Hbody]%orb_false_elim.
    change (keep_lines ((String c body +:+ NL) +:+ rest))
      with (if Ascii.eqb c LF
            then String c EmptyString :: keep_lines ((body +:+ NL) +:+ rest)
            else match keep_lines ((body +:+ NL) +:+ rest) with
                 | [] => [String c EmptyString]
                 | l :: ls => String c l :: ls
                 end).
    by rewrite Hc, (IH Hbody).
Qed.

Lemma keep_lines_concat_lines ls :
  Forall (fun l => exists body, has_char LF body = false /\ l = body +:+ NL)
    ls ->
  keep_lines (concat_lines ls) = ls.
Proof.
  induction 1 as [|l ls (body & Hbody & ->) _ IH]; [done|].
  change (concat_lines ((body +:+ NL) :: ls))
    with ((body +:+ NL) +:+ concat_lines ls).
  by rewrite keep_lines_line, IH.
Qed.

Lemma has_char_concat_lines c ls :
  Forall (fun l => has_char c l = false) ls ->
  has_char c (concat_lines ls) = false.
Proof.
  induction 1 as [|l ls Hl _ IH]; [done|].
  change (concat_lines (l :: ls)) with (l +:+ concat_lines ls).
  by apply has_char_app_false.
Qed.

(** Read back line by line, the rewritten text is the list of the rewritten
    lines of the manifest. *)
Lemma readlines_rewrite raw media_id auth_token :
  single_line media_id = true ->
  single_line auth_token = true ->
  readlines (rewrite_playlist_with_auth_urls raw media_id auth_token)
  = rewrite_lines media_id auth_token (readlines raw).
Proof.
  intros [Hid Hid']%single_line_inv [Htok Htok']%single_line_inv.
  unfold rewrite_playlist_with_auth_urls, rewrite_lines.
  unfold readlines at 1.
  rewrite universal_newlines_id.
  - apply keep_lines_concat_lines, Forall_map.
    eapply Forall_impl; [apply keep_lines_shape|].
    intros l (body & Hl). simpl.
    apply rewrite_line_body; [done | done |].
    by apply (strip_line_no_lf l body).
  - apply has_char_concat_lines, Forall_map.
    eapply Forall_impl;
      [apply keep_lines_has_char, universal_newlines_no_cr|].
    intros l Hl. simpl. by apply rewrite_line_no_cr.
Qed.

(** C6, as amended. When neither the identity nor the token holds a line
    break, the lines of the rewritten text are the rewritten lines of the
    manifest, one for one and in order; a line that ends in [.ts] once
    stripped becomes [/stream/{id}/{name}?token={token}] and a newline,
    [name] being what follows its last ["/"], and when neither the identity
    nor [name] holds a ["?"] or a ["#"] and the token holds no ["&"] and no
    ["#"], the query component of that URL is [token={token}], its only
    parameter; every other line comes out stripped of its leading and
    trailing whitespace, with a newline appended, so it is unchanged up to
    its line ending exactly when it has no other whitespace at its ends. *)
Theorem manifest_rewrite media_id auth_token :
  (forall raw,
      single_line media_id = true ->
      single_line auth_token = true ->
      let out :=
        readlines (rewrite_playlist_with_auth_urls raw media_id auth_token) in
      length out = length (readlines raw)
      /\ forall i,
           out !! i = rewrite_line media_id auth_token <$> readlines raw !! i)
  /\ (forall line,
        endswith (strip line) ".ts" = true ->
        let name := List.last (split "/" (strip line)) EmptyString in
        let url :=
          "/stream/" +:+ media_id +:+ "/" +:+ name +:+ "?token="
          +:+ auth_token in
        rewrite_line media_id auth_token line = url +:+ NL
        /\ (has_char "?" media_id = false ->
            has_char "#" media_id = false ->
            has_char "?" name = false ->
            has_char "#" name = false ->
            has_char "&" auth_token = false ->
            has_char "#" auth_token = false ->
            uri_query url = Some ("token=" +:+ auth_token)
            /\ query_params url = ["token=" +:+ auth_token]))
  /\ (forall line,
        endswith (strip line) ".ts" = false ->
        rewrite_line media_id auth_token line = strip line +:+ NL)
  /\ (forall content,
        strip content = content ->
        endswith content ".ts" = false ->
        rewrite_line media_id auth_token (content +:+ NL) = content +:+ NL
        /\ rewrite_line media_id auth_token content = content +:+ NL).
Proof.
  split; [|split; [|split]].
  - intros raw Hid Htok out. subst out.
    rewrite readlines_rewrite by done. unfold rewrite_lines. split.
    + apply length_map.
    + intros i. apply list_lookup_fmap.
  - intros line Hts name url. split.
    + unfold rewrite_line. by rewrite Hts.
    + intros Hid Hid' Hname Hname' Htok Htok'.
      by apply chunk_url_query.
  - intros line Hts. unfold rewrite_line. by rewrite Hts.
  - intros content Hstrip Hts. unfold rewrite_line, NL. split.
    + rewrite strip_app_space by done. by rewrite Hstrip, Hts.
    + by rewrite Hstrip, Hts.
Qed.

(** ** Token codec: further properties *)

Lemma verify_admin_token_true_inv now alg payload signature key :
  verify_admin_token now (Jws alg payload signature) key = true ->
  payload !! "token_type" = Some (JStr "admin")
  /\ payload !! "admin_key_hash" = Some (JStr (hash_string key))
  /\ validate_exp payload now = None.
Proof.
  unfold verify_admin_token, jwt_decode.
  repeat (case_match; simplify_eq/=; try done).
  repeat match goal with
         | H : negb (bool_decide _) = false |- _ =>
             apply negb_false_iff, bool_decide_eq_true_1 in H
         end.
  done.
Qed.

(** X1. Admin token round trip and key binding: before its expiry (and not
    before its issue where PyJWT rejects a future [iat]) a token made by
    [create_admin_token] for one admin key is accepted by
    [verify_admin_token] for a key exactly when the two keys have the same
    hash; in particular it is accepted for its own key. *)
Theorem admin_token_key_binding
    (issued_at now : Z) (token_id key1 key2 : string) (hours : Z) :
  issued_at <= now \/ iat_future_rejected = false ->
  now < issued_at + 3600 * hours ->
  verify_admin_token now (create_admin_token issued_at token_id key1 hours)
    key2
  = bool_decide (hash_string key1 = hash_string key2)
  /\ verify_admin_token now
       (create_admin_token issued_at token_id key1 hours) key1 = true.
Proof.
  intros Hissued Hnow.
  assert (Hgen : forall key,
    verify_admin_token now (create_admin_token issued_at token_id key1 hours)
      key
    = bool_decide (hash_string key1 = hash_string key)).
  { intros key. unfold verify_admin_token, create_admin_token.
    rewrite jwt_decode_encode.
    unfold validate_iat, validate_exp. simplify_map_eq. simpl.
    replace (iat_future_rejected && (now <? issued_at)) with false.
    2:{ symmetry. destruct Hissued as [Hle | ->]; [|done].
        apply andb_false_intro2, Z.ltb_ge. lia. }
    replace (issued_at + 3600 * hours <=? now) with false
      by (symmetry; apply Z.leb_gt; lia).
    simplify_map_eq. simpl.
    destruct (decide (hash_string key1 = hash_string key)) as [Heq | Hne].
    - rewrite !bool_decide_eq_true_2; [done | done | by rewrite Heq].
    - rewrite (bool_decide_eq_false_2 (hash_string key1 = hash_string key))
        by done.
      rewrite bool_decide_eq_false_2; [done|]. congruence. }
  split; [apply Hgen|]. rewrite Hgen. by apply bool_decide_eq_true_2.
Qed.

(** X2. Kind separation, the other way round: [verify_admin_token] rejects
    every output of [create_access_token] and every well-formed token whose
    kind is not ["admin"], at every clock reading and for every admin key. *)
Theorem access_token_is_no_admin_token :
  (forall issued_at now token_id media_id key m admin_key',
      verify_admin_token now
        (create_access_token issued_at token_id media_id key m) admin_key'
      = false)
  /\ (forall now alg payload signature admin_key',
        payload !! "token_type" <> Some (JStr "admin") ->
        verify_admin_token now (Jws alg payload signature) admin_key'
        = false).
Proof.
  split.
  - intros issued_at now token_id media_id key m admin_key'.
    apply not_true_is_false. rewrite create_access_token_unfold.
    intros (Hty & _)%verify_admin_token_true_inv.
    destruct (access_payload_lookups issued_at token_id media_id key m)
      as (Hty' & _).
    congruence.
  - intros now alg payload signature admin_key' Hty.
    apply not_true_is_false.
    by intros (Hty' & _)%verify_admin_token_true_inv.
Qed.

Lemma verify_access_token_hash_inv now alg payload signature id key :
  verify_access_token now (Jws alg payload signature) id key = true ->
  payload !! "access_key_hash" = Some (JStr (hash_string key)).
Proof.
  unfold verify_access_token, jwt_decode.
  repeat (case_match; simplify_eq/=; try done).
  repeat match goal with
         | H : negb (bool_decide _) = false |- _ =>
             apply negb_false_iff, bool_decide_eq_true_1 in H
         end.
  done.
Qed.

(** X3. [verify_access_token] fails closed: it accepts a token only if the
    token is well formed, names the configured algorithm, carries the MAC of
    its own payload under the key derived from [SECRET_KEY] and the access
    key, has kind ["access"], names the expected resource and the hash of
    the access key, and any integer [exp] it carries is later than the
    clock. A malformed token is always rejected. *)
Theorem verify_access_token_sound now t id key :
  verify_access_token now t id key = true ->
  exists payload,
    t = Jws ALGORITHM payload
          (jws_sign ALGORITHM (generate_signing_key SECRET_KEY key) payload)
    /\ payload !! "token_type" = Some (JStr "access")
    /\ payload !! "media_id" = Some (JStr id)
    /\ payload !! "access_key_hash" = Some (JStr (hash_string key))
    /\ (forall e, payload !! "exp" = Some (JInt e) -> now < e).
Proof.
  unfold verify_access_token, jwt_decode.
  destruct t as [raw | alg payload signature]; [done|].
  destruct (bool_decide (alg ∈ [ALGORITHM])) eqn:Halg; simpl; [|done].
  apply bool_decide_eq_true_1, list_elem_of_singleton in Halg. subst alg.
  destruct (String.eqb_spec signature
              (jws_sign ALGORITHM (generate_signing_key SECRET_KEY key)
                 payload)) as [-> | _]; simpl; [|done].
  destruct (validate_iat payload now); [done|].
  destruct (validate_exp payload now) eqn:Hexp; [done|].
  destruct (bool_decide (payload !! "token_type" = Some (JStr "access")))
    eqn:Hty; simpl; [|done].
  destruct (bool_decide (payload !! "media_id" = Some (JStr id)))
    eqn:Hid; simpl; [|done].
  destruct (bool_decide
              (payload !! "access_key_hash" = Some (JStr (hash_string key))))
    eqn:Hhash; simpl; [|done].
  intros _. exists payload.
  apply bool_decide_eq_true_1 in Hty, Hid, Hhash.
  repeat split; try done.
  intros e He. unfold validate_exp in Hexp. rewrite He in Hexp. simpl in Hexp.
  destruct (Z.leb_spec e now); [done | lia].
Qed.

(** X4. Binding to the access key: a token issued under one access key is
    rejected under any access key with a different hash, for every resource
    identity and at every clock reading. *)
Theorem access_token_bound_to_key
    (issued_at now : Z) (token_id media_id id' keyA keyB : string) (m : Z) :
  hash_string keyA <> hash_string keyB ->
  verify_access_token now
    (create_access_token issued_at token_id media_id keyA m) id' keyB
  = false.
Proof.
  intros Hne. apply not_true_is_false.
  rewrite create_access_token_unfold.
  intros Hhash%verify_access_token_hash_inv.
  destruct (access_payload_lookups issued_at token_id media_id keyA m)
    as (_ & _ & Hhash' & _).
  congruence.
Qed.

(** X5. Exact validity window: from its issue on, an issued token verifies
    for its own identity and key exactly at the clock readings before
    [issued_at + 60 * m]; at that instant itself it is already rejected, and
    with [m <= 0] it is never accepted. *)
Theorem access_token_validity_window
    (issued_at now : Z) (token_id media_id key : string) (m : Z) :
  issued_at <= now ->
  verify_access_token now
    (create_access_token issued_at token_id media_id key m) media_id key
  = bool_decide (now < issued_at + 60 * m).
Proof.
  intros Hissued.
  destruct (decide (now < issued_at + 60 * m)) as [Hlt | Hge].
  - rewrite bool_decide_eq_true_2 by done.
    unfold verify_access_token.
    rewrite decode_issued_token by (done || by left).
    destruct (access_payload_lookups issued_at token_id media_id key m)
      as (Hty & Hid & Hhash & _).
    rewrite Hty, Hid, Hhash.
    by rewrite !bool_decide_eq_true_2.
  - rewrite bool_decide_eq_false_2 by done.
    apply not_true_is_false. rewrite create_access_token_unfold.
    intros (_ & _ & Hexp)%verify_access_token_true_inv.
    destruct (access_payload_lookups issued_at token_id media_id key m)
      as (_ & _ & _ & _ & Hexp').
    unfold validate_exp in Hexp. rewrite Hexp' in Hexp. simpl in Hexp.
    destruct (Z.leb_spec (issued_at + 60 * m) now); [done | lia].
Qed.

Lemma length_split sep s : length (split sep s) = S (count_char sep s).
Proof.
  induction s as [|a s IH]; [done|]. simpl.
  destruct (Ascii.eqb a sep); simpl; [by rewrite IH|].
  destruct (split sep s); simpl in *; lia.
Qed.

(** X6. [validate_token_format] accepts exactly the strings that hold
    exactly two dots, whatever stands between them, and nothing that is not
    a string. *)
Theorem validate_token_format_spec (token : option jvalue) :
  validate_token_format token = true <->
  exists s, token = Some (JStr s) /\ count_char "." s = 2%nat.
Proof.
  unfold validate_token_format. split.
  - destruct token as [[s | z | b]|]; try done.
    destruct (String.eqb_spec s EmptyString) as [-> | Hne]; [done|].
    rewrite length_split. intros H%Nat.eqb_eq. exists s. split; [done | lia].
  - intros (s & -> & Hcount).
    destruct (String.eqb_spec s EmptyString) as [-> | Hne]; [done|].
    rewrite length_split, Hcount. done.
Qed.

(** ** Metadata store: further properties *)

Lemma save_ok_state w data :
  (_save_database w data NoFault).1
  = World (Some (Document data)) None (tree w).
Proof.
  unfold _save_database. by destruct w as [[c|] [b|] t].
Qed.

(** X7. Store and read back: after [store_video] the record read under the
    same identity is the one stored, stamped with the time of the call,
    whether or not the identity was in use before; every other identity
    reads as before; the media tree is untouched and no backup file is
    left. *)
Theorem store_video_get_video w now public_id' video_data :
  let w' := store_video w now public_id' video_data in
  get_video w' public_id'
  = Some (set_updated_at (set_created_at video_data (Some now)) (Some now))
  /\ (forall id, id <> public_id' -> get_video w' id = get_video w id)
  /\ tree w' = tree w
  /\ backup_file w' = None.
Proof.
  unfold store_video, get_video. simpl.
  rewrite load_save_ok, save_ok_state. simpl.
  split; [apply lookup_insert_eq|]. split; [|done].
  intros id Hne. by apply lookup_insert_ne.
Qed.

(** X8. [delete_video]: for a stored identity it returns [True], the
    identity is gone and every other identity reads as before; for an
    identity that is not stored it returns [False] and writes nothing. *)
Theorem delete_video_spec w public_id' :
  (is_Some (get_video w public_id') ->
   (delete_video w public_id').2 = true
   /\ get_video (delete_video w public_id').1 public_id' = None
   /\ forall id, id <> public_id' ->
        get_video (delete_video w public_id').1 id = get_video w id)
  /\ (get_video w public_id' = None ->
      delete_video w public_id' = (w, false)).
Proof.
  unfold delete_video, get_video. split.
  - intros [r Hr]. rewrite Hr. simpl. rewrite load_save_ok.
    split; [done|]. split; [apply lookup_delete_eq|].
    intros id Hne. by apply lookup_delete_ne.
  - by intros ->.
Qed.

(** X9. [update_video] never creates a record: for an identity that is not
    stored it returns [False] and writes nothing; for a stored one it
    returns [True] and replaces the whole record by the one given, stamped
    with the time of the call, leaving every other identity as before. *)
Theorem update_video_spec w now public_id' video_data :
  (get_video w public_id' = None ->
   update_video w now public_id' video_data = (w, false))
  /\ (is_Some (get_video w public_id') ->
      (update_video w now public_id' video_data).2 = true
      /\ get_video (update_video w now public_id' video_data).1 public_id'
         = Some (set_updated_at video_data (Some now))
      /\ forall id, id <> public_id' ->
           get_video (update_video w now public_id' video_data).1 id
           = get_video w id).
Proof.
  split.
  - unfold update_video, get_video. by intros ->.
  - intros [r Hr]. split; [|split].
    + unfold update_video. unfold get_video in Hr. by rewrite Hr.
    + rewrite get_video_update, Hr. by rewrite decide_True.
    + intros id Hne. rewrite get_video_update, Hr. by rewrite decide_False.
Qed.

(** X10. A database file that is missing or truncated reads as the empty
    mapping, and the next [store_video] replaces it: afterwards the store
    holds the new record and nothing else, whatever the truncated document
    was a prefix of. *)
Theorem store_video_over_unreadable_file w now public_id' video_data :
  db_file w = None \/ (exists d k, db_file w = Some (Truncated d k)) ->
  (forall id, get_video w id = None)
  /\ _load_database (store_video w now public_id' video_data)
     = {[ public_id' :=
            set_updated_at (set_created_at video_data (Some now))
              (Some now) ]}.
Proof.
  intros Hfile.
  assert (Hload : _load_database w = ∅).
  { unfold _load_database.
    destruct Hfile as [-> | (d & k & ->)]; reflexivity. }
  split.
  - intros id. unfold get_video. by rewrite Hload.
  - unfold store_video. by rewrite load_save_ok, Hload.
Qed.

Lemma cleanup_scan_stuck current_time items e :
  foldl (cleanup_step current_time) (inr e) items = inr e.
Proof. induction items as [|item items IH]; [done | exact IH]. Qed.

(** X11. [cleanup_expired_videos] never removes a record: on an empty store
    it returns 0, and on any other store it raises [NameError] for
    [timedelta] at the first record, before anything is written; in both
    cases the state is left as it was. *)
Theorem cleanup_expired_videos_never_removes w current_time :
  (cleanup_expired_videos w current_time).1 = w
  /\ (_load_database w = ∅ ->
      (cleanup_expired_videos w current_time).2 = inl 0%nat)
  /\ (_load_database w <> ∅ ->
      (cleanup_expired_videos w current_time).2
      = inr (NameError "timedelta")).
Proof.
  unfold cleanup_expired_videos, cleanup_scan.
  destruct (map_to_list (_load_database w)) as [|item items] eqn:Hitems.
  - simpl. split; [done|]. split; [done|].
    intros Hne. by apply map_to_list_empty_iff in Hitems.
  - assert (Hne : _load_database w <> ∅).
    { intros Hempty. rewrite Hempty, map_to_list_empty in Hitems. done. }
    change (foldl (cleanup_step current_time) (inl []) (item :: items))
      with (foldl (cleanup_step current_time)
              (inr (NameError "timedelta")) items).
    by rewrite cleanup_scan_stuck.
Qed.

(** ** Handlers: further properties *)

Lemma get_video_store w now public_id' video_data id :
  get_video (store_video w now public_id' video_data) id =
  if decide (public_id' = id)
  then Some (set_updated_at (set_created_at video_data (Some now)) (Some now))
  else get_video w id.
Proof.
  unfold store_video, get_video. rewrite load_save_ok. apply lookup_insert.
Qed.

Lemma verify_in_window issued_at now token_id media_id key m :
  issued_at <= now < issued_at + 60 * m ->
  verify_access_token now
    (create_access_token issued_at token_id media_id key m) media_id key
  = true.
Proof.
  intros Hnow. unfold verify_access_token.
  rewrite decode_issued_token by (lia || (left; lia)).
  destruct (access_payload_lookups issued_at token_id media_id key m)
    as (Hty & Hid & Hhash & _).
  rewrite Hty, Hid, Hhash.
  by rewrite !bool_decide_eq_true_2.
Qed.

(** X12. No content without a valid token: whenever [get_playlist] or
    [get_segment] answers with content, the identity is stored and the token
    verifies for that identity under the stored access key at that clock
    reading; the playlist body is the stored playlist rewritten with that
    token, and the segment path is an existing path strictly inside the
    canonical directory of the record. *)
Theorem content_requires_valid_token w now media_id access_token :
  (forall b,
      get_playlist w now media_id access_token = Ok b ->
      exists r,
        get_video w media_id = Some r
        /\ verify_access_token now access_token media_id (access_key r) = true
        /\ b = PlaylistBody
                 (rewrite_playlist_with_auth_urls
                    (read_text w
                       (path_join3 HLS_ROOT (internal_id r) "playlist.m3u8"))
                    media_id (token_text access_token)))
  /\ (forall segment_name b,
        get_segment w now media_id segment_name access_token = Ok b ->
        exists r p,
          get_video w media_id = Some r
          /\ verify_access_token now access_token media_id (access_key r)
             = true
          /\ b = FileBody p
          /\ startswith p
               (abspath cwd (path_join HLS_ROOT (internal_id r)) +:+ "/")
             = true
          /\ exists_ w p = true).
Proof.
  split.
  - intros b. unfold get_playlist.
    destruct (get_video w media_id) as [r|]; [|done].
    destruct (verify_access_token _ _ _ _) eqn:Hv; simpl; [|done].
    destruct (exists_ w _); simpl; [|done].
    intros [= <-]. by exists r.
  - intros segment_name b. unfold get_segment.
    destruct (get_video w media_id) as [r|]; [|done].
    destruct (verify_access_token _ _ _ _) eqn:Hv; simpl; [|done].
    unfold resolve_segment.
    destruct (_ || _ || _); [done|].
    destruct (startswith _ _) eqn:Hin; simpl; [|done].
    destruct (exists_ w _) eqn:Hex; simpl; [|done].
    intros [= <-]. by eexists r, _.
Qed.

(** X13. A successful upload: when the encoder succeeds the answer carries
    the token [create_access_token] makes for the new identity and key; the
    record stored under the new identity holds the identifiers, both keys
    and the requested expiry and is stamped with the time of the call; every
    other identity reads as before; the token verifies for the new identity
    under the stored key from the upload until [expiry_minutes] later; and
    the admin key of the answer opens [get_media_info]. *)
Theorem upload_success w now run iid pid ak adk tid base_url media m :
  stderr run = None ->
  let result :=
    upload_media w now run iid pid ak adk tid base_url media m in
  let access_token := create_access_token now tid pid ak m in
  result.1
  = Ok (UploadBody pid access_token adk
          (base_url +:+ "stream/" +:+ pid +:+ "/playlist.m3u8?token="
           +:+ token_text access_token) m)
  /\ get_video result.2 pid
     = Some (MediaRecord pid iid ak (Some adk) now (Some m) None None
               (Some now) (Some now))
  /\ (forall id, id <> pid -> get_video result.2 id = get_video w id)
  /\ (forall now',
        now <= now' < now + 60 * m ->
        verify_access_token now' access_token pid ak = true)
  /\ get_media_info result.2 pid adk
     = (Ok (InfoBody pid now m None (Some now) (Some now)), result.2).
Proof.
  intros Hok result access_token. subst result.
  unfold upload_media.
  set (w0 := write_file _ _ _).
  assert (Hdb0 : db_file w0 = db_file w).
  { unfold w0, write_file, makedirs. by destruct (_ !! _). }
  clearbody w0.
  pose proof (generate_hls_outcome w0 run
                (path_join HLS_ROOT (iid +:+ ".mp4"))
                (path_join HLS_ROOT iid)) as Hout.
  destruct (db_generate_hls w0 run (path_join HLS_ROOT (iid +:+ ".mp4"))
              (path_join HLS_ROOT iid)) as [Hdb _].
  rewrite Hok in Hout.
  destruct (generate_hls w0 run _ _) as [w3 r]. simpl in Hout, Hdb. subst r.
  simpl.
  set (w4 := if exists_ w3 _ then _ else w3).
  assert (Hload : _load_database w4 = _load_database w).
  { unfold _load_database.
    replace (db_file w4) with (db_file w); [done|].
    unfold w4. destruct (exists_ _ _); simpl; congruence. }
  clearbody w4.
  assert (Hpid : get_video
                   (store_video w4 now pid
                      (MediaRecord pid iid ak (Some adk) now (Some m) None
                         None None None)) pid
                 = Some (MediaRecord pid iid ak (Some adk) now (Some m) None
                           None (Some now) (Some now))).
  { rewrite get_video_store. by rewrite decide_True. }
  split; [done|]. split; [exact Hpid|]. split; [|split].
  - intros id Hne. rewrite get_video_store, decide_False by done.
    unfold get_video. by rewrite Hload.
  - intros now' Hnow'. by apply verify_in_window.
  - unfold get_media_info. rewrite Hpid. simpl.
    by rewrite bool_decide_eq_true_2.
Qed.

(** X14. Refresh: for a stored record, the stored admin key and a playlist
    that exists, [refresh_access_token] answers with a new token for the
    stored access key, stores the requested expiry (replacing, not adding
    to, the stored one) and the time of the refresh, keeps both keys and the
    internal identity, and the new token verifies from then until
    [expiry_minutes] later; when the playlist file is missing the answer is
    404 and the state is unchanged. *)
Theorem refresh_access_token_spec w now tid base_url media_id key m r :
  get_video w media_id = Some r ->
  admin_key r = Some key ->
  let playlist_path :=
    path_join (path_join HLS_ROOT (internal_id r)) "playlist.m3u8" in
  let result := refresh_access_token w now tid base_url media_id key m in
  let access_token := create_access_token now tid media_id (access_key r) m in
  (exists_ w playlist_path = false ->
   result = (HTTPException 404 "Media files not found!", w))
  /\ (exists_ w playlist_path = true ->
      result.1
      = Ok (TokenBody media_id access_token
              (base_url +:+ "stream/" +:+ media_id
               +:+ "/playlist.m3u8?token=" +:+ token_text access_token) m)
      /\ get_video result.2 media_id
         = Some (MediaRecord (public_id r) (internal_id r) (access_key r)
                   (admin_key r) (upload_time r) (Some m) (Some now)
                   (expiry_extended_at r) (created_at r) (Some now))
      /\ (forall id, id <> media_id ->
            get_video result.2 id = get_video w id)
      /\ (forall now',
            now <= now' < now + 60 * m ->
            verify_access_token now' access_token media_id (access_key r)
            = true)).
Proof.
  intros Hr Hkey playlist_path result access_token. subst result.
  unfold refresh_access_token. rewrite Hr, Hkey.
  rewrite bool_decide_eq_true_2 by done. simpl. fold playlist_path.
  split.
  - by intros ->.
  - intros ->. simpl. split; [done|]. split; [|split].
    + rewrite get_video_update, Hr, decide_True by done.
      destruct r; simpl in *. by subst.
    + intros id Hne. rewrite get_video_update, Hr. by rewrite decide_False.
    + intros now' Hnow'. by apply verify_in_window.
Qed.

(** X15. Delete: for a stored record and its admin key [delete_media]
    answers with success; afterwards the identity is gone, every other
    identity reads as before, the directory of the record does not exist
    (with everything below it, if it existed), and every later request for
    the identity, whatever its token or admin key, is answered with 404. *)
Theorem delete_media_spec w media_id key r :
  get_video w media_id = Some r ->
  admin_key r = Some key ->
  let hls_dir := path_join HLS_ROOT (internal_id r) in
  let result := delete_media w media_id key in
  result.1 = Ok (MessageBody "Media successfully deleted!")
  /\ get_video result.2 media_id = None
  /\ (forall id, id <> media_id -> get_video result.2 id = get_video w id)
  /\ exists_ result.2 hls_dir = false
  /\ (exists_ w hls_dir = true ->
      forall q, inside (resolve hls_dir) q = true ->
                tree result.2 !! q = None)
  /\ (forall now access_token segment_name,
        get_playlist result.2 now media_id access_token
        = HTTPException 404 "Media not found!"
        /\ get_segment result.2 now media_id segment_name access_token
           = HTTPException 404 "Media not found!")
  /\ (forall op now key',
        run_admin_op op result.2 now media_id key'
        = (HTTPException 404 "Media not found!", result.2)).
Proof.
  intros Hr Hkey hls_dir result. subst result.
  unfold delete_media. rewrite Hr, Hkey.
  rewrite bool_decide_eq_true_2 by done. simpl. fold hls_dir.
  set (w1 := (_save_database w (delete media_id (_load_database w)) NoFault).1).
  assert (Hload : _load_database w1 = delete media_id (_load_database w))
    by apply load_save_ok.
  assert (Htree : tree w1 = tree w) by apply tree_save.
  clearbody w1.
  set (w2 := if exists_ w1 hls_dir then rmtree w1 hls_dir else w1).
  assert (Hload2 : _load_database w2 = delete media_id (_load_database w)).
  { rewrite <- Hload. unfold w2. by destruct (exists_ w1 hls_dir). }
  assert (Hgone : get_video w2 media_id = None).
  { unfold get_video. rewrite Hload2. apply lookup_delete_eq. }
  split; [done|]. split; [exact Hgone|]. split; [|split; [|split; [|split]]].
  - intros id Hne. unfold get_video. rewrite Hload2.
    by apply lookup_delete_ne.
  - unfold w2. destruct (exists_ w1 hls_dir) eqn:Hex; [|done].
    apply exists_false. unfold rmtree. simpl.
    apply map_lookup_filter_None. right. intros x _. simpl.
    by rewrite inside_refl.
  - intros Hex q Hq. unfold w2, exists_. rewrite Htree.
    unfold exists_ in Hex. rewrite Hex. unfold rmtree. simpl.
    apply map_lookup_filter_None. right. intros x _. simpl. by rewrite Hq.
  - intros now access_token segment_name.
    unfold get_playlist, get_segment. by rewrite Hgone.
  - intros op now key'.
    destruct op; simpl;
      unfold refresh_access_token, delete_media, get_media_info,
        extend_media_expiry; by rewrite Hgone.
Qed.

(** X16. Extensions add up and saturate: for a stored record, its admin key
    and two non-negative amounts, extending by the first and then by the
    second leaves the same stored expiry as extending once by their sum,
    namely [min (prev + N1 + N2) 10080], where [prev] is the stored expiry,
    or 60 when the record has none. *)
Theorem extend_media_expiry_compose w now1 now2 now3 media_id key N1 N2 r :
  get_video w media_id = Some r ->
  admin_key r = Some key ->
  0 <= N1 -> 0 <= N2 ->
  let prev := get_default (expiry_minutes r) 60 in
  let w1 := (extend_media_expiry w now1 media_id key N1).2 in
  let w2 := (extend_media_expiry w1 now2 media_id key N2).2 in
  let w3 := (extend_media_expiry w now3 media_id key (N1 + N2)).2 in
  expiry_minutes <$> get_video w2 media_id
  = Some (Some (Z.min (prev + N1 + N2) 10080))
  /\ expiry_minutes <$> get_video w2 media_id
     = expiry_minutes <$> get_video w3 media_id.
Proof.
  intros Hr Hkey HN1 HN2 prev w1 w2 w3.
  assert (Hstep : forall w0 now N r0,
    get_video w0 media_id = Some r0 ->
    admin_key r0 = Some key ->
    get_video (extend_media_expiry w0 now media_id key N).2 media_id
    = Some (set_updated_at
              (set_expiry_extended_at
                 (set_expiry_minutes r0
                    (Some (Z.min (get_default (expiry_minutes r0) 60 + N)
                             10080)))
                 (Some now))
              (Some now))).
  { intros w0 now N r0 Hr0 Hkey0. unfold extend_media_expiry.
    rewrite Hr0, Hkey0. rewrite bool_decide_eq_true_2 by done. simpl.
    rewrite get_video_update, Hr0. by rewrite decide_True. }
  assert (H1 := Hstep w now1 N1 r Hr Hkey). fold w1 in H1.
  assert (H2 := Hstep w1 now2 N2 _ H1 Hkey). fold w2 in H2.
  assert (H3 := Hstep w now3 (N1 + N2) r Hr Hkey). fold w3 in H3.
  rewrite H2, H3. simpl. fold prev.
  split; do 2 f_equal; lia.
Qed.

(** X17. What an extension grants: for a stored record and its admin key
    the reported [extended_by_minutes] is never more than the amount asked
    for, is that amount exactly when the sum stays within 10080, is not
    negative when the stored expiry is within 10080, and is zero or negative
    once the stored expiry has reached 10080, although the answer is still a
    success; a record without [expiry_minutes] counts as 60. *)
Theorem extend_media_expiry_grant w now media_id key N r :
  get_video w media_id = Some r ->
  admin_key r = Some key ->
  let prev := get_default (expiry_minutes r) 60 in
  exists new_expiry extended_by,
    (extend_media_expiry w now media_id key N).1
    = Ok (ExtendBody media_id prev new_expiry extended_by)
    /\ new_expiry = Z.min (prev + N) 10080
    /\ extended_by = new_expiry - prev
    /\ extended_by <= N
    /\ (prev + N <= 10080 <-> extended_by = N)
    /\ (prev <= 10080 -> 0 <= N -> 0 <= extended_by)
    /\ (10080 <= prev -> 0 <= N -> extended_by <= 0).
Proof.
  intros Hr Hkey prev. unfold extend_media_expiry. rewrite Hr, Hkey.
  rewrite bool_decide_eq_true_2 by done. simpl. fold prev.
  eexists _, _. split; [reflexivity|].
  repeat split; lia.
Qed.

(** ** Strings and canonical paths: auxiliary facts *)

Lemma plain_inv c :
  plain_component c = true ->
  c <> EmptyString /\ c <> "." /\ c <> ".." /\ has_char "/" c = false.
Proof.
  unfold plain_component. intros H.
  repeat (apply andb_prop in H; destruct H as [H ?]).
  repeat match goal with
         | H : negb _ = true |- _ => apply negb_true_iff in H
         end.
  repeat split; try done; intros ->; discriminate.
Qed.

Lemma string_app_assoc (a b c : string) : (a +:+ b) +:+ c = a +:+ (b +:+ c).
Proof.
  induction a as [|x a IH]; [done|]. rewrite !str_app_cons. by f_equal.
Qed.

Lemma string_app_nil_r (a : string) : a +:+ EmptyString = a.
Proof. induction a as [|x a IH]; [done|]. rewrite str_app_cons. by f_equal. Qed.

Lemma split_nonempty sep s : split sep s <> [].
Proof.
  destruct s as [|a s]; simpl; [done|].
  destruct (Ascii.eqb a sep); [done|]. by destruct (split sep s).
Qed.

Lemma split_app_sep sep a b :
  split sep (a +:+ String sep b) = (split sep a ++ split sep b)%list.
Proof.
  induction a as [|x a IH].
  - rewrite str_app_nil_l. simpl. by rewrite Ascii.eqb_refl.
  - rewrite str_app_cons. simpl.
    destruct (Ascii.eqb x sep); [by rewrite IH|].
    rewrite IH. pose proof (split_nonempty sep a).
    by destruct (split sep a).
Qed.

Lemma join_cons2 sep (c c2 : string) cs :
  join sep (c :: c2 :: cs) = c +:+ sep +:+ join sep (c2 :: cs).
Proof. reflexivity. Qed.

Lemma slash_app (s : string) : "/" +:+ s = String "/" s.
Proof. reflexivity. Qed.

Lemma split_join cs :
  Forall (fun c => has_char "/" c = false) cs -> cs <> [] ->
  split "/" (join "/" cs) = cs.
Proof.
  induction 1 as [|c cs Hc Hcs IH]; [done|]. intros _.
  destruct cs as [|c2 cs].
  - by apply split_no_sep.
  - rewrite join_cons2, slash_app, split_app_sep, split_no_sep by done.
    by rewrite IH.
Qed.

Lemma join_app (xs ys : list string) :
  xs <> [] -> ys <> [] ->
  join "/" (xs ++ ys) = join "/" xs +:+ "/" +:+ join "/" ys.
Proof.
  intros Hxs Hys. induction xs as [|x xs IH]; [done|].
  destruct xs as [|x2 xs].
  - destruct ys; [done|]. reflexivity.
  - change ((x :: x2 :: xs) ++ ys)%list with (x :: x2 :: (xs ++ ys))%list.
    rewrite !join_cons2.
    change (x2 :: (xs ++ ys))%list with ((x2 :: xs) ++ ys)%list.
    rewrite IH by done. by rewrite !string_app_assoc.
Qed.

Lemma fold_plain k cs acc :
  Forall (fun c => plain_component c = true) cs ->
  fold_left (normpath_step k) cs acc = (acc ++ cs)%list.
Proof.
  intros H. revert acc. induction H as [|c cs Hc Hcs IH]; intros acc; simpl.
  - by rewrite app_nil_r.
  - assert (Hstep : normpath_step k acc c = (acc ++ [c])%list).
    { apply plain_inv in Hc as (H1 & H2 & H3 & _).
      unfold normpath_step.
      apply String.eqb_neq in H1, H2, H3. by rewrite H1, H2, H3. }
    rewrite Hstep, IH, <- app_assoc. done.
Qed.

Lemma startswith_slash_plain c s :
  has_char "/" c = false -> c <> EmptyString ->
  startswith (c +:+ s) "/" = false.
Proof.
  destruct c as [|x c]; [done|].
  intros [Hx _]%orb_false_elim _.
  unfold startswith. rewrite str_app_cons. cbn [String.prefix].
  destruct (ascii_dec "/" x) as [Heq|]; [|done].
  subst x. by rewrite Ascii.eqb_refl in Hx.
Qed.

Lemma join_cons_form c cs :
  exists s, join "/" (c :: cs) = c +:+ s.
Proof.
  destruct cs; [exists EmptyString; by rewrite string_app_nil_r|].
  rewrite join_cons2. eauto.
Qed.

Lemma startswith_slash_join cs :
  Forall (fun c => plain_component c = true) cs ->
  startswith (join "/" cs) "/" = false.
Proof.
  intros H. destruct H as [|c cs Hc _]; [done|].
  destruct (join_cons_form c cs) as [s ->].
  apply plain_inv in Hc as (H1 & _ & _ & H4).
  by apply startswith_slash_plain.
Qed.

Lemma Forall_plain_nosep cs :
  Forall (fun c => plain_component c = true) cs ->
  Forall (fun c => has_char "/" c = false) cs.
Proof.
  intros H. eapply Forall_impl; [exact H|].
  intros c Hc. by apply plain_inv in Hc as (_&_&_&?).
Qed.

Lemma join_nonempty c cs :
  c <> EmptyString -> join "/" (c :: cs) <> EmptyString.
Proof.
  destruct (join_cons_form c cs) as [s ->]. by destruct c.
Qed.

Lemma startswith_nil s : startswith s EmptyString = true.
Proof. by destruct s. Qed.

Lemma startswith_cons x s p :
  startswith (String x s) (String x p) = startswith s p.
Proof. unfold startswith. simpl. by destruct (ascii_dec x x). Qed.

Lemma normpath_root cs :
  Forall (fun c => plain_component c = true) cs ->
  normpath (root_path cs) = root_path cs.
Proof.
  intros H. unfold normpath, root_path.
  change (String.eqb ("/" +:+ join "/" cs) EmptyString) with false.
  cbv iota.
  assert (Hsl : initial_slashes ("/" +:+ join "/" cs) = 1%nat).
  { unfold initial_slashes. rewrite slash_app.
    rewrite !startswith_cons, startswith_nil.
    by rewrite startswith_slash_join. }
  rewrite Hsl.
  change (split "/" ("/" +:+ join "/" cs))
    with (EmptyString :: split "/" (join "/" cs)).
  cbn [fold_left]. 
  change (normpath_step 1 [] EmptyString) with (@nil string).
  destruct cs as [|c cs].
  - reflexivity.
  - rewrite split_join by (by apply Forall_plain_nosep || done).
    rewrite fold_plain by done. simpl app.
    change (repeat_string "/" 1) with ("/" +:+ EmptyString).
    done.
Qed.

Lemma normpath_relative rs :
  Forall (fun c => plain_component c = true) rs -> rs <> [] ->
  normpath (join "/" rs) = join "/" rs.
Proof.
  intros H Hne. unfold normpath.
  destruct rs as [|c rs]; [done|].
  assert (Hc : c <> EmptyString).
  { inversion H as [|?? Hc _]. by apply plain_inv in Hc as (?&_). }
  pose proof (join_nonempty c rs Hc) as Hj.
  apply String.eqb_neq in Hj. rewrite Hj.
  unfold initial_slashes. rewrite startswith_slash_join by done.
  rewrite split_join by (by apply Forall_plain_nosep || done).
  rewrite fold_plain by done. simpl app.
  change (repeat_string "/" 0) with EmptyString. rewrite str_app_nil_l.
  by rewrite Hj.
Qed.

Lemma endswith_cons x s suffix :
  endswith (String x s) suffix
  = String.eqb (String x s) suffix || endswith s suffix.
Proof. reflexivity. Qed.

Lemma endswith_nochar b c :
  has_char c b = false -> endswith b (String c EmptyString) = false.
Proof.
  induction b as [|x b IH]; [done|]. simpl has_char.
  intros [Hx Hb]%orb_false_elim.
  rewrite endswith_cons, IH by done. rewrite orb_false_r.
  destruct (String.eqb_spec (String x b) (String c EmptyString)) as [Heq|];
    [|done].
  injection Heq as -> _. by rewrite Ascii.eqb_refl in Hx.
Qed.

Lemma endswith_app a b c :
  b <> EmptyString ->
  endswith (a +:+ b) (String c EmptyString) = endswith b (String c EmptyString).
Proof.
  intros Hb. induction a as [|x a IH]; [done|].
  rewrite str_app_cons, endswith_cons, IH.
  destruct (String.eqb_spec (String x (a +:+ b)) (String c EmptyString))
    as [Heq|]; [|done].
  injection Heq as _ Heq. destruct a; [by rewrite str_app_nil_l in Heq | done].
Qed.

Lemma Forall_plain_last xs c :
  Forall (fun c => plain_component c = true) (xs ++ [c]) ->
  plain_component c = true.
Proof. intros H. apply Forall_app in H as [_ H]. by inversion H. Qed.

Lemma join_snoc_form xs c :
  exists pre, join "/" (xs ++ [c]) = pre +:+ c.
Proof.
  destruct xs as [|x xs]; [by exists EmptyString|].
  exists (join "/" (x :: xs) +:+ "/").
  rewrite join_app by done. by rewrite string_app_assoc.
Qed.

Lemma endswith_slash_join pre rs :
  Forall (fun c => plain_component c = true) rs -> rs <> [] ->
  endswith (pre +:+ join "/" rs) "/" = false.
Proof.
  intros H Hne. destruct (@exists_last _ rs Hne) as (rs' & c & ->).
  apply Forall_plain_last in H. apply plain_inv in H as (H1 & _ & _ & H4).
  destruct (join_snoc_form rs' c) as [p ->].
  rewrite <- string_app_assoc, endswith_app by done.
  by apply endswith_nochar.
Qed.

Lemma path_join_plain a c :
  a <> EmptyString -> endswith a "/" = false -> plain_component c = true ->
  path_join a c = a +:+ "/" +:+ c.
Proof.
  intros Ha Hend Hc. apply plain_inv in Hc as (H1 & _ & _ & H4).
  unfold path_join.
  rewrite <- (string_app_nil_r c) at 1.
  rewrite startswith_slash_plain by done.
  apply String.eqb_neq in Ha. by rewrite Ha, Hend.
Qed.

(** Joining a relative path of plain components with one more. *)
Lemma path_join_relative rs c :
  Forall (fun c => plain_component c = true) rs -> rs <> [] ->
  plain_component c = true ->
  path_join (join "/" rs) c = join "/" (rs ++ [c]).
Proof.
  intros H Hne Hc.
  rewrite path_join_plain; [by rewrite join_app| |
    by rewrite <- (str_app_nil_l (join "/" rs)), endswith_slash_join | done].
  destruct rs as [|r rs]; [done|]. apply join_nonempty.
  inversion H as [|?? Hr _]. by apply plain_inv in Hr as (?&_).
Qed.

Lemma path_join_root cs rs :
  Forall (fun c => plain_component c = true) cs ->
  Forall (fun c => plain_component c = true) rs -> rs <> [] ->
  path_join (root_path cs) (join "/" rs) = root_path (cs ++ rs).
Proof.
  intros Hcs Hrs Hne. unfold path_join, root_path.
  rewrite startswith_slash_join by done.
  destruct cs as [|c cs].
  - reflexivity.
  - rewrite endswith_slash_join by done.
    change (String.eqb ("/" +:+ join "/" (c :: cs)) EmptyString) with false.
    cbn [orb].
    rewrite (join_app (c :: cs) rs) by done.
    by rewrite !string_app_assoc.
Qed.

Lemma abspath_relative cs rs :
  Forall (fun c => plain_component c = true) cs ->
  Forall (fun c => plain_component c = true) rs -> rs <> [] ->
  abspath (root_path cs) (join "/" rs) = root_path (cs ++ rs).
Proof.
  intros Hcs Hrs Hne. unfold abspath.
  rewrite startswith_slash_join by done.
  rewrite path_join_root by done.
  apply normpath_root. by apply Forall_app.
Qed.

Lemma abspath_absolute d xs :
  Forall (fun c => plain_component c = true) xs ->
  abspath d (root_path xs) = root_path xs.
Proof.
  intros H. unfold abspath.
  replace (startswith (root_path xs) "/") with true.
  - by apply normpath_root.
  - unfold root_path. by rewrite slash_app, startswith_cons, startswith_nil.
Qed.

Lemma startswith_app a b : startswith (a +:+ b) a = true.
Proof.
  induction a as [|x a IH]; [apply startswith_nil|].
  by rewrite str_app_cons, startswith_cons.
Qed.

Lemma startswith_inv s p :
  startswith s p = true -> exists t, s = p +:+ t.
Proof.
  revert s. induction p as [|x p IH]; intros s; [by exists s|].
  destruct s as [|y s]; [done|]. unfold startswith. simpl.
  destruct (ascii_dec x y) as [->|]; [|done].
  intros [t ->]%IH. by exists t.
Qed.

Lemma root_path_snoc xs c :
  xs <> [] -> root_path (xs ++ [c]) = root_path xs +:+ "/" +:+ c.
Proof.
  intros Hne. unfold root_path. rewrite join_app by done.
  by rewrite !string_app_assoc.
Qed.

Lemma contains_char s c : contains s (String c EmptyString) = has_char c s.
Proof.
  induction s as [|a s IH]; [done|]. simpl. rewrite IH. f_equal.
  destruct (ascii_dec c a) as [->|Hne].
  - rewrite Ascii.eqb_refl. by destruct s.
  - symmetry. apply Ascii.eqb_neq. congruence.
Qed.

Lemma good_name_plain name :
  ~ bad_segment_name name -> plain_component name = true.
Proof.
  unfold bad_segment_name, plain_component. intros Hok.
  destruct (endswith name ".ts") eqn:E1; [|by destruct Hok; left].
  destruct (contains name "/") eqn:E2; [by destruct Hok; right; left|].
  destruct (contains name "..") eqn:E3; [by destruct Hok; right; right|].
  rewrite contains_char in E2. rewrite E2.
  destruct (String.eqb_spec name EmptyString) as [->|_]; [done|].
  destruct (String.eqb_spec name ".") as [->|_]; [done|].
  destruct (String.eqb_spec name "..") as [->|_]; [done|].
  done.
Qed.

Lemma hls_root_components : HLS_ROOT = join "/" ["media"; "hls"].
Proof. reflexivity. Qed.

Lemma plain_media_hls :
  Forall (fun c => plain_component c = true) ["media"; "hls"].
Proof. by repeat constructor. Qed.

Lemma hls_dir_components iid :
  plain_component iid = true ->
  path_join HLS_ROOT iid = join "/" ["media"; "hls"; iid].
Proof.
  intros Hiid. rewrite hls_root_components.
  by rewrite path_join_relative by (done || apply plain_media_hls).
Qed.

Lemma hls_file_components iid name :
  plain_component iid = true -> plain_component name = true ->
  path_join3 HLS_ROOT iid name = join "/" ["media"; "hls"; iid; name].
Proof.
  intros Hiid Hname. unfold path_join3. rewrite hls_dir_components by done.
  rewrite path_join_relative; [done | | done | done].
  by repeat constructor.
Qed.

(** Injectivity of canonical paths. *)
Lemma split_root_path xs :
  Forall (fun c => plain_component c = true) xs -> xs <> [] ->
  split "/" (root_path xs) = EmptyString :: xs.
Proof.
  intros H Hne. unfold root_path. rewrite slash_app.
  change (split "/" (String "/" (join "/" xs)))
    with (EmptyString :: split "/" (join "/" xs)).
  by rewrite split_join by (by apply Forall_plain_nosep || done).
Qed.

Lemma root_path_inj xs ys :
  Forall (fun c => plain_component c = true) xs -> xs <> [] ->
  Forall (fun c => plain_component c = true) ys -> ys <> [] ->
  root_path xs = root_path ys -> xs = ys.
Proof.
  intros Hxs Hx Hys Hy Heq.
  apply (f_equal (split "/")) in Heq.
  rewrite !split_root_path in Heq by done. by injection Heq.
Qed.

(** A canonical path below [media/hls/iid2] is neither the directory
    [media/hls/iid1] nor below it, for two different plain names. *)
Lemma other_resource_outside cs iid1 iid2 rest :
  Forall (fun c => plain_component c = true) cs ->
  plain_component iid1 = true ->
  plain_component iid2 = true ->
  Forall (fun c => plain_component c = true) rest ->
  iid2 <> iid1 ->
  inside (root_path (cs ++ ["media"; "hls"; iid1]))
    (root_path (cs ++ "media" :: "hls" :: iid2 :: rest)) = false.
Proof.
  intros Hcs H1 H2 Hrest Hne.
  assert (HD : Forall (fun c => plain_component c = true)
                 (cs ++ ["media"; "hls"; iid1])).
  { apply Forall_app. split; [done | by repeat constructor]. }
  assert (HQ : Forall (fun c => plain_component c = true)
                 (cs ++ "media" :: "hls" :: iid2 :: rest)).
  { apply Forall_app. split; [done | by repeat constructor]. }
  unfold inside. apply orb_false_intro.
  - apply String.eqb_neq. intros Heq.
    apply root_path_inj in Heq; [| done | by destruct cs | done | by destruct cs].
    apply app_inv_head in Heq. congruence.
  - apply not_true_is_false. intros [t Ht]%startswith_inv.
    rewrite string_app_assoc, slash_app in Ht.
    apply (f_equal (split "/")) in Ht.
    rewrite split_app_sep, !split_root_path in Ht by (done || by destruct cs).
    injection Ht as Ht. rewrite <- app_assoc in Ht.
    apply app_inv_head in Ht. simpl in Ht. congruence.
Qed.

Lemma pretty_N_go_digits x s :
  all_digits s = true -> all_digits (pretty_N_go x s) = true.
Proof.
  revert s. induction (N.lt_wf_0 x) as [x _ IH]; intros s Hs.
  assert (x = 0 ∨ 0 < x)%N as [->|?] by lia.
  - by rewrite pretty_N_go_0.
  - rewrite pretty_N_go_step by done. apply IH.
    { by apply N.div_lt. }
    simpl. rewrite Hs, andb_true_r.
    unfold pretty_N_char. by repeat case_match.
Qed.

Lemma pretty_nat_digits (i : nat) : all_digits (pretty i) = true.
Proof.
  unfold pretty, pretty_nat, pretty, pretty_N.
  case_decide; [done|]. by apply pretty_N_go_digits.
Qed.

Lemma pretty_nat_nonempty (i : nat) : pretty i <> EmptyString.
Proof.
  unfold pretty, pretty_nat, pretty, pretty_N.
  case_decide; [done|].
  assert (0 < N.of_nat i)%N by lia.
  rewrite pretty_N_go_step by done.
  generalize (N.of_nat i `div` 10)%N (pretty_N_char (N.of_nat i `mod` 10)).
  intros x c.
  assert (Hgo : forall y s, s <> EmptyString -> pretty_N_go y s <> EmptyString).
  { intros y. induction (N.lt_wf_0 y) as [y _ IH]; intros s Hs.
    assert (y = 0 ∨ 0 < y)%N as [->|?] by lia.
    - by rewrite pretty_N_go_0.
    - rewrite pretty_N_go_step by done. apply IH; [by apply N.div_lt | done]. }
  by apply Hgo.
Qed.

Lemma digits_no_char c s :
  is_digit c = false -> all_digits s = true -> has_char c s = false.
Proof.
  intros Hc. induction s as [|a s IH]; [done|]. simpl.
  intros [Ha Hs]%andb_prop. rewrite IH by done. rewrite orb_false_r.
  apply Ascii.eqb_neq. intros ->. congruence.
Qed.

Lemma endswith_suffix a suffix : endswith (a +:+ suffix) suffix = true.
Proof.
  induction a as [|x a IH].
  - rewrite str_app_nil_l. destruct suffix; [done|].
    by rewrite endswith_cons, String.eqb_refl.
  - rewrite str_app_cons, endswith_cons, IH. apply orb_true_r.
Qed.

Lemma contains_dotdot s :
  contains s ".." = true -> exists a b, s = a +:+ ".." +:+ b.
Proof.
  induction s as [|x s IH]; [done|].
  simpl. intros [Hp | Hc]%orb_prop.
  - apply (startswith_inv (String x s) "..") in Hp as [t ->].
    by exists EmptyString, t.
  - destruct (IH Hc) as (a & b & ->). by exists (String x a), b.
Qed.

Lemma segment_name_good (i : nat) :
  ~ bad_segment_name ("segment" +:+ pretty i +:+ ".ts").
Proof.
  pose proof (pretty_nat_digits i) as Hd.
  intros [H | [H | H]].
  - rewrite <- string_app_assoc, endswith_suffix in H. done.
  - rewrite contains_char, !has_char_append in H.
    rewrite (digits_no_char "/" (pretty i)) in H by done. done.
  - apply contains_dotdot in H as (a & b & H).
    apply (f_equal (count_char ".")) in H.
    revert H. 
    assert (Hcount : forall c u v,
      count_char c (u +:+ v) = (count_char c u + count_char c v)%nat).
    { intros c u v. induction u as [|y u IHu]; [done|].
      rewrite str_app_cons. simpl. rewrite IHu. lia. }
    rewrite !Hcount.
    assert (Hzero : count_char "." (pretty i) = 0%nat).
    { clear -Hd. induction (pretty i) as [|y u IHu]; [done|].
      simpl in *. apply andb_prop in Hd as [Hy Hu]. rewrite IHu by done.
      destruct (Ascii.eqb_spec y ".") as [->|]; [done | done]. }
    rewrite Hzero. simpl. lia.
Qed.

Lemma plain_mp4 iid :
  plain_component iid = true -> plain_component (iid +:+ ".mp4") = true.
Proof.
  intros (H1 & _ & _ & H4)%plain_inv. unfold plain_component.
  rewrite has_char_append, H4.
  pose proof (endswith_suffix iid ".mp4") as Hend.
  destruct (String.eqb_spec (iid +:+ ".mp4") EmptyString) as [Heq|_];
    [by rewrite Heq in Hend|].
  destruct (String.eqb_spec (iid +:+ ".mp4") ".") as [Heq|_];
    [by rewrite Heq in Hend|].
  destruct (String.eqb_spec (iid +:+ ".mp4") "..") as [Heq|_];
    [by rewrite Heq in Hend|].
  done.
Qed.

Lemma endswith_inv s suffix :
  endswith s suffix = true -> exists a, s = a +:+ suffix.
Proof.
  induction s as [|x s IH].
  - destruct suffix; [by exists EmptyString | done].
  - rewrite endswith_cons. intros [H%String.eqb_eq | H]%orb_prop.
    + subst suffix. by exists EmptyString.
    + destruct (IH H) as [a ->]. by exists (String x a).
Qed.

(** Appending a text without separator extends the last part. *)
Lemma split_app_last sep a b :
  has_char sep b = false ->
  exists parts part,
    split sep a = (parts ++ [part])%list
    /\ split sep (a +:+ b) = (parts ++ [part +:+ b])%list.
Proof.
  intros Hb. induction a as [|x a (parts & part & Ha & Hab)].
  - exists [], EmptyString. split; [done|].
    rewrite !str_app_nil_l. by apply split_no_sep.
  - rewrite str_app_cons. simpl. rewrite Ha, Hab.
    destruct (Ascii.eqb x sep).
    + by exists (EmptyString :: parts), part.
    + destruct parts as [|p parts].
      * by exists [], (String x part).
      * by exists (String x p :: parts), part.
Qed.

Lemma last_snoc (parts : list string) part d :
  List.last (parts ++ [part]) d = part.
Proof. apply List.last_last. Qed.

Lemma has_char_split_sep sep s :
  Forall (fun part => has_char sep part = false) (split sep s).
Proof.
  induction s as [|x s IH]; [by repeat constructor|]. simpl.
  destruct (Ascii.eqb x sep) eqn:E; [by constructor|].
  destruct (split sep s) as [|p ps]; inversion IH; subst;
    constructor; simpl; try done; by rewrite E.
Qed.

(** X21. The names the rewriter emits: for a line that ends in [.ts] once
    stripped, the name put into the URL is what follows the last ["/"] of
    the stripped line; it contains no ["/"] and ends in [.ts], so the
    segment handler's string checks refuse it exactly when it contains
    [".."]. *)
Theorem rewritten_name_fetchable media_id auth_token line :
  endswith (strip line) ".ts" = true ->
  let name := List.last (split "/" (strip line)) EmptyString in
  rewrite_line media_id auth_token line
  = ("/stream/" +:+ media_id +:+ "/" +:+ name +:+ "?token=" +:+ auth_token)
    +:+ NL
  /\ endswith name ".ts" = true
  /\ contains name "/" = false
  /\ (bad_segment_name name <-> contains name ".." = true).
Proof.
  intros Hts name.
  assert (Hend : endswith name ".ts" = true).
  { destruct (endswith_inv _ _ Hts) as [a Ha].
    destruct (split_app_last "/" a ".ts" eq_refl) as (parts & part & _ & Hs).
    unfold name. rewrite Ha, Hs, last_snoc. apply endswith_suffix. }
  assert (Hslash : contains name "/" = false).
  { rewrite contains_char. unfold name.
    apply has_char_last, has_char_split_sep. }
  split; [unfold rewrite_line; by rewrite Hts|].
  split; [done|]. split; [done|]. split.
  - intros [H | [H | H]]; [congruence | congruence | done].
  - intros H. by right; right.
Qed.

Lemma lstrip_head s : head_not_space (lstrip s).
Proof.
  induction s as [|c s IH]; [done|]. simpl.
  destruct (isspace c) eqn:E; [exact IH | exact E].
Qed.

Lemma lstrip_fixed s : head_not_space s -> lstrip s = s.
Proof. destruct s as [|c s]; [done|]. simpl. by intros ->. Qed.

Lemma rstrip_head s : head_not_space s -> head_not_space (rstrip s).
Proof.
  destruct s as [|c s]; [done|]. simpl. intros Hc.
  destruct (rstrip s); simpl; by rewrite ?Hc.
Qed.

Lemma rstrip_idem s : rstrip (rstrip s) = rstrip s.
Proof.
  induction s as [|c s IH]; [done|]. simpl.
  destruct (rstrip s) as [|d r] eqn:E.
  - destruct (isspace c) eqn:Ec; [done|]. simpl. by rewrite Ec.
  - change (rstrip (String c (String d r)))
      with (match rstrip (String d r) with
            | EmptyString =>
                if isspace c then EmptyString else String c EmptyString
            | r' => String c r'
            end).
    by rewrite IH.
Qed.

Lemma strip_idem s : strip (strip s) = strip s.
Proof.
  unfold strip.
  rewrite (lstrip_fixed (rstrip (lstrip s)))
    by apply rstrip_head, lstrip_head.
  apply rstrip_idem.
Qed.

(** X22. Rewriting is idempotent on the lines that reference no chunk: a
    line that does not end in [.ts] once stripped comes out stripped with
    one newline, and rewriting that output again returns it unchanged;
    stripping itself is idempotent. *)
Theorem rewrite_line_idempotent media_id auth_token line :
  endswith (strip line) ".ts" = false ->
  strip (strip line) = strip line
  /\ rewrite_line media_id auth_token
       (rewrite_line media_id auth_token line)
     = rewrite_line media_id auth_token line.
Proof.
  intros Hts. split; [apply strip_idem|].
  assert (Hout : rewrite_line media_id auth_token line = strip line +:+ NL).
  { unfold rewrite_line. by rewrite Hts. }
  rewrite Hout. unfold rewrite_line, NL.
  rewrite strip_app_space by done. by rewrite strip_idem, Hts.
Qed.

(** X25. What a halted save leaves behind: when [_save_database] is halted
    while the new document is being written, the old content of the
    database file is still in the backup file, but nothing reads it: the
    load returns the empty mapping, [_init_database] finds a database file
    and changes nothing, and the next save that returns has renamed the
    truncated file over the backup and removed it, so the old content is
    then in neither file. *)
Theorem halted_save_leaves_backup w data k old :
  db_file w = Some old ->
  let w' := (_save_database w data (Halt (AtDump k))).1 in
  backup_file w' = Some old
  /\ db_file w' = Some (Truncated data k)
  /\ _load_database w' = ∅
  /\ _init_database w' = w'
  /\ forall data2,
       (_save_database w' data2 NoFault).1
       = World (Some (Document data2)) None (tree w).
Proof.
  intros Hold. destruct w as [db b t]. simpl in Hold. subst db.
  repeat split.
Qed.

(** ** Canonical paths of the media tree *)

Lemma resolve_hls_dir cs iid :
  Forall (fun c => plain_component c = true) cs ->
  cwd = root_path cs ->
  plain_component iid = true ->
  resolve (path_join HLS_ROOT iid) = root_path (cs ++ ["media"; "hls"; iid]).
Proof.
  intros Hcs Hcwd Hiid. unfold resolve. rewrite Hcwd.
  rewrite hls_dir_components by done.
  apply abspath_relative; [done | | done]. by repeat constructor.
Qed.

Lemma resolve_hls_file cs iid name :
  Forall (fun c => plain_component c = true) cs ->
  cwd = root_path cs ->
  plain_component iid = true ->
  plain_component name = true ->
  resolve (path_join3 HLS_ROOT iid name)
  = root_path (cs ++ ["media"; "hls"; iid; name]).
Proof.
  intros Hcs Hcwd Hiid Hname. unfold resolve. rewrite Hcwd.
  rewrite hls_file_components by done.
  apply abspath_relative; [done | | done]. by repeat constructor.
Qed.

Lemma resolve_root_path xs :
  Forall (fun c => plain_component c = true) xs ->
  resolve (root_path xs) = root_path xs.
Proof. apply abspath_absolute. Qed.

Lemma segment_canonical cs iid name :
  Forall (fun c => plain_component c = true) cs ->
  cwd = root_path cs ->
  plain_component iid = true ->
  plain_component name = true ->
  abspath cwd (normpath (path_join3 HLS_ROOT iid name))
  = root_path (cs ++ ["media"; "hls"; iid; name]).
Proof.
  intros Hcs Hcwd Hiid Hname. rewrite Hcwd.
  rewrite hls_file_components by done.
  rewrite normpath_relative by (done || by repeat constructor).
  apply abspath_relative; [done | | done]. by repeat constructor.
Qed.

Lemma hls_file_inside xs iid name :
  startswith (root_path (xs ++ ["media"; "hls"; iid; name]))
    (root_path (xs ++ ["media"; "hls"; iid]) +:+ "/") = true.
Proof.
  replace (xs ++ ["media"; "hls"; iid; name])%list
    with ((xs ++ ["media"; "hls"; iid]) ++ [name])%list
    by (by rewrite <- app_assoc).
  rewrite root_path_snoc by (by destruct xs).
  rewrite <- string_app_assoc. apply startswith_app.
Qed.

Lemma resolve_segment_plain cs w iid name :
  Forall (fun c => plain_component c = true) cs ->
  cwd = root_path cs ->
  plain_component iid = true ->
  ~ bad_segment_name name ->
  resolve_segment w iid name =
  if bool_decide
       (is_Some (tree w !! root_path (cs ++ ["media"; "hls"; iid; name])))
  then Ok (FileBody (root_path (cs ++ ["media"; "hls"; iid; name])))
  else HTTPException 404 "Segment not found".
Proof.
  intros Hcs Hcwd Hiid Hok.
  pose proof (good_name_plain name Hok) as Hname.
  assert (Hall : Forall (fun c => plain_component c = true)
                   (cs ++ ["media"; "hls"; iid; name])).
  { apply Forall_app. split; [done | by repeat constructor]. }
  rewrite resolve_segment_valid by
    (done || (rewrite (segment_canonical cs) by done;
              fold (resolve (path_join HLS_ROOT iid));
              rewrite (resolve_hls_dir cs) by done;
              apply hls_file_inside)).
  rewrite (segment_canonical cs) by done.
  unfold exists_. by rewrite resolve_root_path.
Qed.

Lemma tree_rmtree_outside w d q :
  inside (resolve d) q = false -> tree (rmtree w d) !! q = tree w !! q.
Proof.
  intros Hout. unfold rmtree. simpl.
  destruct (tree w !! q) as [x|] eqn:E.
  - by apply map_lookup_filter_Some_2.
  - apply map_lookup_filter_None_2. by left.
Qed.

(** X18. Segment resolution on canonical paths: with the working directory
    an absolute path of plain components and the internal identity a plain
    name, every segment name that passes the string checks resolves to
    [cwd/media/hls/<internal id>/<name>], is served exactly when that path
    exists and answered with 404 otherwise; the canonical-path check never
    refuses such a request. *)
Theorem segment_resolution_canonical cs iid :
  Forall (fun c => plain_component c = true) cs ->
  cwd = root_path cs ->
  plain_component iid = true ->
  (forall w name,
      ~ bad_segment_name name ->
      resolve_segment w iid name =
      if bool_decide
           (is_Some (tree w !! root_path (cs ++ ["media"; "hls"; iid; name])))
      then Ok (FileBody (root_path (cs ++ ["media"; "hls"; iid; name])))
      else HTTPException 404 "Segment not found")
  /\ (forall w name,
        resolve_segment w iid name <> HTTPException 400 "Invalid segment path!").
Proof.
  intros Hcs Hcwd Hiid. split.
  - intros w name Hok. by apply resolve_segment_plain.
  - intros w name.
    destruct (endswith name ".ts") eqn:E1;
      [destruct (contains name "/") eqn:E2;
       [|destruct (contains name "..") eqn:E3]|].
    + rewrite resolve_segment_bad_name; [done|].
      right; by left.
    + rewrite resolve_segment_bad_name; [done|].
      right; by right.
    + rewrite (resolve_segment_plain cs) by
        (done || (intros [? | [? | ?]]; congruence)).
      by destruct (bool_decide _).
    + rewrite resolve_segment_bad_name; [done|]. by left.
Qed.

(** X19. Deleting one resource leaves the others in place: with a canonical
    working directory and plain internal identities, after a successful
    [delete_media] every file below the directory of another internal
    identity is as before, and the playlist and segment handlers answer
    every request for another stored identity as they did before. *)
Theorem delete_media_isolation cs w id1 key r1 :
  Forall (fun c => plain_component c = true) cs ->
  cwd = root_path cs ->
  get_video w id1 = Some r1 ->
  admin_key r1 = Some key ->
  plain_component (internal_id r1) = true ->
  let w' := (delete_media w id1 key).2 in
  (forall iid2 rest,
      plain_component iid2 = true ->
      Forall (fun c => plain_component c = true) rest ->
      iid2 <> internal_id r1 ->
      tree w' !! root_path (cs ++ "media" :: "hls" :: iid2 :: rest)
      = tree w !! root_path (cs ++ "media" :: "hls" :: iid2 :: rest))
  /\ (forall id2 r2 now segment_name access_token,
        get_video w id2 = Some r2 ->
        id2 <> id1 ->
        plain_component (internal_id r2) = true ->
        internal_id r2 <> internal_id r1 ->
        get_playlist w' now id2 access_token
        = get_playlist w now id2 access_token
        /\ get_segment w' now id2 segment_name access_token
           = get_segment w now id2 segment_name access_token).
Proof.
  intros Hcs Hcwd Hr1 Hkey Hiid1 w'. subst w'.
  unfold delete_media. rewrite Hr1, Hkey.
  rewrite bool_decide_eq_true_2 by done. simpl.
  set (w1 := (_save_database w (delete id1 (_load_database w)) NoFault).1).
  assert (Hload : _load_database w1 = delete id1 (_load_database w))
    by apply load_save_ok.
  assert (Htree : tree w1 = tree w) by apply tree_save.
  clearbody w1.
  set (w2 := if exists_ w1 (path_join HLS_ROOT (internal_id r1))
             then rmtree w1 (path_join HLS_ROOT (internal_id r1)) else w1).
  assert (Hload2 : _load_database w2 = delete id1 (_load_database w)).
  { rewrite <- Hload. unfold w2. by destruct (exists_ w1 _). }
  assert (Hfiles : forall iid2 rest,
    plain_component iid2 = true ->
    Forall (fun c => plain_component c = true) rest ->
    iid2 <> internal_id r1 ->
    tree w2 !! root_path (cs ++ "media" :: "hls" :: iid2 :: rest)
    = tree w !! root_path (cs ++ "media" :: "hls" :: iid2 :: rest)).
  { intros iid2 rest Hiid2 Hrest Hne. rewrite <- Htree. unfold w2.
    destruct (exists_ w1 _); [|done].
    apply tree_rmtree_outside.
    rewrite (resolve_hls_dir cs) by done.
    by apply other_resource_outside. }
  split; [exact Hfiles|].
  intros id2 r2 now segment_name access_token Hr2 Hne Hiid2 Hdiff.
  assert (Hr2' : get_video w2 id2 = Some r2).
  { unfold get_video. rewrite Hload2, lookup_delete_ne by done. exact Hr2. }
  split.
  - unfold get_playlist, exists_, read_text.
    rewrite Hr2, Hr2'.
    rewrite (resolve_hls_file cs) by done.
    by rewrite Hfiles by (done || by repeat constructor).
  - unfold get_segment. rewrite Hr2, Hr2'.
    destruct (verify_access_token _ _ _ _); simpl;
      [|done].
    destruct (endswith segment_name ".ts") eqn:E1;
      [destruct (contains segment_name "/") eqn:E2;
       [|destruct (contains segment_name "..") eqn:E3]|].
    + rewrite !resolve_segment_bad_name; [done| |];
        right; by left.
    + rewrite !resolve_segment_bad_name; [done| |];
        right; by right.
    + assert (Hgood : ~ bad_segment_name segment_name)
        by (intros [? | [? | ?]]; congruence).
      rewrite !(resolve_segment_plain cs) by done.
      rewrite Hfiles; [done | done | | done].
      constructor; [by apply good_name_plain | constructor].
    + rewrite !resolve_segment_bad_name; [done| |]; by left.
Qed.

Lemma foldr_write_lookup files w0 (i : nat) f :
  files !! i = Some f ->
  is_Some
    (tree (foldr (fun (f : string * string) w => write_file w f.1 f.2) w0
             files)
     !! resolve f.1).
Proof.
  revert i. induction files as [|g files IH]; intros i Hi; [done|].
  simpl. rewrite lookup_insert. case_decide; [by eexists|].
  destruct i as [|i]; simpl in Hi; [by simplify_eq | by eapply IH].
Qed.

Lemma generate_hls_tree w run v o :
  tree (generate_hls w run v o).1 =
  match playlist run with
  | Some c =>
      <[resolve (path_join o "playlist.m3u8") := File c]>
        (tree (foldr (fun (f : string * string) w => write_file w f.1 f.2)
                 (makedirs w o)
                 (imap (fun i c => (segment_filename o i, c)) (segments run))))
  | None =>
      tree (foldr (fun (f : string * string) w => write_file w f.1 f.2)
              (makedirs w o)
              (imap (fun i c => (segment_filename o i, c)) (segments run)))
  end.
Proof.
  unfold generate_hls. by destruct (stderr run), (playlist run).
Qed.

(** X20. From upload to streaming: with a canonical working directory and a
    plain internal identity, after an upload whose encoder run succeeded and
    wrote a playlist, the playlist handler answers the new identity and the
    returned token, at any time within the token's validity, with that
    playlist rewritten for the token, and the segment handler serves every
    segment file the run wrote. *)
Theorem upload_then_stream cs w now run iid pid ak adk tid base_url media m
    now' content :
  Forall (fun c => plain_component c = true) cs ->
  cwd = root_path cs ->
  plain_component iid = true ->
  stderr run = None ->
  playlist run = Some content ->
  now <= now' < now + 60 * m ->
  let result :=
    upload_media w now run iid pid ak adk tid base_url media m in
  let access_token := create_access_token now tid pid ak m in
  get_playlist result.2 now' pid access_token
  = Ok (PlaylistBody
          (rewrite_playlist_with_auth_urls content pid
             (token_text access_token)))
  /\ forall i : nat,
       (i < length (segments run))%nat ->
       get_segment result.2 now' pid ("segment" +:+ pretty i +:+ ".ts")
         access_token
       = Ok (FileBody
               (root_path
                  (cs ++ ["media"; "hls"; iid;
                          "segment" +:+ pretty i +:+ ".ts"]))).
Proof.
  intros Hcs Hcwd Hiid Hok Hpl Hnow result access_token. subst result.
  unfold upload_media.
  set (media_path := path_join HLS_ROOT (iid +:+ ".mp4")).
  set (hls_dir := path_join HLS_ROOT iid).
  set (w0 := write_file _ media_path media). clearbody w0.
  (* the tree the encoder leaves *)
  assert (Hpath : forall name,
    plain_component name = true ->
    resolve (path_join hls_dir name)
    = root_path (cs ++ ["media"; "hls"; iid; name])).
  { intros name Hname. by apply (resolve_hls_file cs). }
  assert (Hplaylist :
    tree (generate_hls w0 run media_path hls_dir).1
    !! root_path (cs ++ ["media"; "hls"; iid; "playlist.m3u8"])
    = Some (File content)).
  { rewrite generate_hls_tree, Hpl, Hpath by done. apply lookup_insert_eq. }
  assert (Hsegments : forall i : nat,
    (i < length (segments run))%nat ->
    is_Some
      (tree (generate_hls w0 run media_path hls_dir).1
       !! root_path (cs ++ ["media"; "hls"; iid;
                            "segment" +:+ pretty i +:+ ".ts"]))).
  { intros i Hi. rewrite generate_hls_tree, Hpl.
    rewrite lookup_insert. case_decide; [by eexists|].
    apply lookup_lt_is_Some_2 in Hi as [c Hc].
    rewrite <- Hpath by apply good_name_plain, segment_name_good.
    apply (foldr_write_lookup _ _ i (segment_filename hls_dir i, c)).
    by rewrite list_lookup_imap, Hc. }
  pose proof (generate_hls_outcome w0 run media_path hls_dir) as Hout.
  rewrite Hok in Hout.
  destruct (generate_hls w0 run media_path hls_dir) as [w3 r].
  simpl in Hout, Hplaylist, Hsegments. subst r. simpl.
  set (w4 := if exists_ w3 media_path then remove w3 media_path else w3).
  (* the original is the only path the cleanup removes *)
  assert (Hkeep : forall name,
    plain_component name = true ->
    tree w4 !! root_path (cs ++ ["media"; "hls"; iid; name])
    = tree w3 !! root_path (cs ++ ["media"; "hls"; iid; name])).
  { intros name Hname. unfold w4. destruct (exists_ w3 media_path); [|done].
    unfold remove. simpl. apply lookup_delete_ne.
    unfold media_path.
    rewrite (resolve_hls_dir cs) by (done || by apply plain_mp4).
    intros Heq. apply root_path_inj in Heq.
    - apply app_inv_head in Heq. discriminate Heq.
    - apply Forall_app. split; [done|].
      repeat constructor. by apply plain_mp4.
    - by destruct cs.
    - apply Forall_app. split; [done | by repeat constructor].
    - by destruct cs. }
  clearbody w4.
  set (rec := MediaRecord pid iid ak (Some adk) now (Some m) None None None
                None).
  assert (Hrec : get_video (store_video w4 now pid rec) pid
                 = Some (set_updated_at (set_created_at rec (Some now))
                           (Some now))).
  { rewrite get_video_store. by rewrite decide_True. }
  assert (Htree : tree (store_video w4 now pid rec) = tree w4).
  { unfold store_video. apply tree_save. }
  assert (Hverify : verify_access_token now' access_token pid ak = true)
    by (by apply verify_in_window).
  split.
  - unfold get_playlist, exists_, read_text.
    rewrite Hrec. simpl. fold access_token. rewrite Hverify. simpl.
    rewrite (resolve_hls_file cs) by done.
    rewrite Htree, Hkeep, Hplaylist by done.
    by rewrite bool_decide_eq_true_2.
  - intros i Hi. unfold get_segment.
    rewrite Hrec. simpl. fold access_token. rewrite Hverify. simpl.
    rewrite (resolve_segment_plain cs) by (done || apply segment_name_good).
    rewrite Htree, Hkeep by apply good_name_plain, segment_name_good.
    by rewrite bool_decide_eq_true_2 by (by apply Hsegments).
Qed.

(** X23. What [get_media_info] reports: for a stored record and its admin
    key it returns the stored fields, with 60 for a missing expiry, and
    leaves the state as it is; after a successful extension it reports the
    capped sum and the time of the extension as [updated_at]; after a
    successful refresh it reports the requested expiry and the time of the
    refresh. *)
Theorem get_media_info_reflects_updates w now media_id key r :
  get_video w media_id = Some r ->
  admin_key r = Some key ->
  get_media_info w media_id key
  = (Ok (InfoBody media_id (upload_time r)
           (get_default (expiry_minutes r) 60) (last_token_refresh r)
           (created_at r) (updated_at r)), w)
  /\ (forall N,
        (get_media_info (extend_media_expiry w now media_id key N).2
           media_id key).1
        = Ok (InfoBody media_id (upload_time r)
                (Z.min (get_default (expiry_minutes r) 60 + N) 10080)
                (last_token_refresh r) (created_at r) (Some now)))
  /\ (forall tid base_url m,
        exists_ w
          (path_join (path_join HLS_ROOT (internal_id r)) "playlist.m3u8")
        = true ->
        (get_media_info
           (refresh_access_token w now tid base_url media_id key m).2
           media_id key).1
        = Ok (InfoBody media_id (upload_time r) m (Some now) (created_at r)
                (Some now))).
Proof.
  intros Hr Hkey. split; [|split].
  - unfold get_media_info. rewrite Hr, Hkey.
    by rewrite bool_decide_eq_true_2.
  - intros N. unfold extend_media_expiry. rewrite Hr, Hkey.
    rewrite bool_decide_eq_true_2 by done. simpl.
    unfold get_media_info. rewrite get_video_update, Hr.
    rewrite decide_True by done. simpl. rewrite Hkey.
    by rewrite bool_decide_eq_true_2.
  - intros tid base_url m Hex. unfold refresh_access_token.
    rewrite Hr, Hkey. rewrite bool_decide_eq_true_2 by done. simpl.
    rewrite Hex. simpl.
    unfold get_media_info. rewrite get_video_update, Hr.
    rewrite decide_True by done. simpl. rewrite Hkey.
    by rewrite bool_decide_eq_true_2.
Qed.

(** X24. The handlers refuse a foreign or expired token: for a stored
    identity, a token issued for another identity, or under an access key
    whose hash differs from that of the stored key, or whose validity has
    run out, is answered with 403 by both the playlist and the segment
    handler, whatever segment is asked for. *)
Theorem handlers_refuse_foreign_or_expired
    w now issued_at tid idA keyA m idB rB segment_name :
  get_video w idB = Some rB ->
  idA <> idB
  \/ hash_string keyA <> hash_string (access_key rB)
  \/ issued_at + 60 * m <= now ->
  let access_token := create_access_token issued_at tid idA keyA m in
  get_playlist w now idB access_token
  = HTTPException 403 "Invalid or expired access token!"
  /\ get_segment w now idB segment_name access_token
     = HTTPException 403 "Invalid or expired access token!".
Proof.
  intros HrB Hcase access_token.
  assert (Hno : verify_access_token now access_token idB (access_key rB)
                = false).
  { apply not_true_is_false. unfold access_token.
    rewrite create_access_token_unfold. intros Hv.
    destruct (access_payload_lookups issued_at tid idA keyA m)
      as (_ & Hid & Hhash & _ & Hexp).
    destruct Hcase as [Hne | [Hne | Hlate]].
    - apply verify_access_token_true_inv in Hv as (_ & Hid' & _).
      congruence.
    - apply verify_access_token_hash_inv in Hv. congruence.
    - apply verify_access_token_true_inv in Hv as (_ & _ & Hexp').
      unfold validate_exp in Hexp'. rewrite Hexp in Hexp'. simpl in Hexp'.
      destruct (Z.leb_spec (issued_at + 60 * m) now); [done | lia]. }
  unfold get_playlist, get_segment. by rewrite HrB, Hno.
Qed.

End PyHLS.



(** * The properties on the sample instances *)

Lemma access_token_round_trip_witness :
  1 <= 60 <= 10080
  /\ (1000 <= 1030 \/ true = false)
  /\ 1030 < 1000 + 60 * 60
  /\ verify_access_token sample_sha256 sample_sign sample_int true
       "secret" "HS256" 1030
       (create_access_token sample_sha256 sample_sign "secret" "HS256"
          1000 "jti1" "pub1" "ak1" 60)
       "pub1" "ak1" = true.
Proof.
  assert (Hissued : 1000 <= 1030 \/ true = false) by (left; lia).
  split; [lia|]. split; [exact Hissued|]. split; [lia|].
  apply access_token_round_trip; [lia | exact Hissued | lia].
Defined.

Lemma subject_and_kind_checks_witness :
  ("pub1" <> "pub2"
   /\ verify_access_token sample_sha256 sample_sign sample_int true
        "secret" "HS256" 1030
        (create_access_token sample_sha256 sample_sign "secret" "HS256"
           1000 "jti1" "pub1" "ak1" 60)
        "pub2" "ak1" = false)
  /\ (({[ "token_type" := JStr "admin" ]} : gmap string jvalue)
        !! "token_type" = Some (JStr "admin")
      /\ verify_access_token sample_sha256 sample_sign sample_int true
           "secret" "HS256" 1030
           (Jws "HS256" {[ "token_type" := JStr "admin" ]}
              (sample_sign "HS256" (sample_sha256 "secret:ak1")
                 {[ "token_type" := JStr "admin" ]}))
           "pub1" "ak1" = false).
Proof.
  pose proof (subject_and_kind_checks sample_sha256 sample_sign sample_int
                true "secret" "HS256") as (H1 & H2 & _ & _).
  split.
  - split; [discriminate|]. apply H1. discriminate.
  - split; [reflexivity|]. apply H2. reflexivity.
Defined.

Lemma expiry_boundary_witness :
  1 <= 60 <= 10080
  /\ 1000 + 60 * 60 < 4601
  /\ verify_access_token sample_sha256 sample_sign sample_int true
       "secret" "HS256" 4601
       (create_access_token sample_sha256 sample_sign "secret" "HS256"
          1000 "jti1" "pub1" "ak1" 60)
       "pub1" "ak1" = false
  /\ verify_access_token sample_sha256 sample_sign sample_int true
       "secret" "HS256" (1000 + 60 * 60 - 1)
       (create_access_token sample_sha256 sample_sign "secret" "HS256"
          1000 "jti1" "pub1" "ak1" 60)
       "pub1" "ak1" = true.
Proof.
  assert (Hm : 1 <= 60 <= 10080) by lia.
  pose proof (expiry_boundary sample_sha256 sample_sign sample_int true
                "secret" "HS256" 1000 "jti1" "pub1" "ak1" 60 Hm)
    as (Hlate & _ & Hbefore).
  split; [exact Hm|]. split; [lia|]. split; [apply Hlate; lia | exact Hbefore].
Defined.

Lemma segment_path_safety_witness :
  (bad_segment_name "x.mp4"
   /\ resolve_segment sample_cwd sample_world "int1" "x.mp4"
      = HTTPException 400 "Invalid segment name!")
  /\ (startswith
        (abspath sample_cwd (normpath (path_join3 HLS_ROOT "/" "segment3.ts")))
        (abspath sample_cwd (path_join HLS_ROOT "/") +:+ "/") = false
      /\ exists detail,
           resolve_segment sample_cwd sample_world "/" "segment3.ts"
           = HTTPException 400 detail)
  /\ (~ bad_segment_name "segment3.ts"
      /\ startswith
           (abspath sample_cwd
              (normpath (path_join3 HLS_ROOT "int1" "segment3.ts")))
           (abspath sample_cwd (path_join HLS_ROOT "int1") +:+ "/") = true
      /\ resolve_segment sample_cwd sample_world "int1" "segment3.ts"
         = Ok (FileBody "/srv/app/media/hls/int1/segment3.ts")
      /\ resolve_segment sample_cwd sample_world "int1" "segment4.ts"
         = HTTPException 404 "Segment not found")
  /\ (bad_segment_name "../secret.ts"
      /\ get_video sample_world "pub1" = Some sample_record
      /\ verify_access_token sample_sha256 sample_sign sample_int true
           "secret" "HS256" 1030
           (create_access_token sample_sha256 sample_sign "secret" "HS256"
              1000 "jti1" "pub1" "ak1" 60)
           "pub1" (access_key sample_record) = true
      /\ get_segment sample_sha256 sample_sign sample_int true "secret"
           "HS256" sample_cwd sample_world 1030 "pub1" "../secret.ts"
           (create_access_token sample_sha256 sample_sign "secret" "HS256"
              1000 "jti1" "pub1" "ak1" 60)
         = HTTPException 400 "Invalid segment name!")
  /\ ("a/b.ts" = "../secret.ts" \/ "a/b.ts" = "a/b.ts" \/ "a/b.ts" = "x.mp4")
  /\ (exists status_code detail,
        get_segment sample_sha256 sample_sign sample_int true "secret"
          "HS256" sample_cwd sample_world 1030 "pub1" "a/b.ts"
          (Malformed "garbage")
        = HTTPException status_code detail).
Proof.
  pose proof (segment_path_safety sample_sha256 sample_sign sample_int true
                "secret" "HS256" sample_cwd)
    as (Hname & Hout & _ & Hin & Hseg3 & Hgate & _ & Hthree).
  assert (Hbad : bad_segment_name "x.mp4") by (left; reflexivity).
  assert (Hbad' : bad_segment_name "../secret.ts")
    by (right; left; reflexivity).
  assert (Hok3 : ~ bad_segment_name "segment3.ts")
    by (intros [H | [H | H]]; discriminate H).
  assert (Hok4 : ~ bad_segment_name "segment4.ts")
    by (intros [H | [H | H]]; discriminate H).
  assert (Hmid : "a/b.ts" = "../secret.ts" \/ "a/b.ts" = "a/b.ts"
                 \/ "a/b.ts" = "x.mp4") by (right; left; reflexivity).
  split; [split; [exact Hbad | exact (Hname sample_world "int1" _ Hbad)]|].
  split; [split; [reflexivity | apply Hout; reflexivity]|].
  split; [|split].
  - split; [exact Hok3|]. split; [reflexivity|]. split.
    + exact (Hseg3 sample_world "int1" eq_refl).
    + exact (Hin sample_world "int1" "segment4.ts" Hok4 eq_refl).
  - split; [exact Hbad'|]. split; [reflexivity|]. split; [reflexivity|].
    exact (Hgate sample_world 1030 "pub1"
             (create_access_token sample_sha256 sample_sign "secret" "HS256"
                1000 "jti1" "pub1" "ak1" 60)
             "../secret.ts" sample_record Hbad' eq_refl eq_refl).
  - split; [exact Hmid|].
    exact (proj2 (Hthree sample_world "int1" 1030 "pub1"
                    (Malformed "garbage") "a/b.ts" Hmid)).
Defined.

Lemma save_database_atomicity_witness :
  is_Some (db_file sample_world)
  /\ (_load_database
        (_save_database sample_world sample_new_data (Raise (AtDump 17))).1
      = _load_database sample_world)
  /\ (_load_database
        (_save_database sample_world sample_new_data NoFault).1
      = sample_new_data).
Proof.
  assert (H : is_Some (db_file sample_world)) by (eexists; reflexivity).
  split; [exact H|]. split.
  - exact (proj1 (save_database_atomicity sample_world sample_new_data
                    (Raise (AtDump 17)) H)).
  - exact (proj1 (save_database_atomicity sample_world sample_new_data
                    NoFault H)).
Defined.

(** C5, as stated, fails: halted after 17 characters of the new document
    have been written, the save leaves a truncated file, and the next load
    returns the empty mapping, which is neither the old nor the new one. *)
Lemma save_halted_counterexample :
  _load_database
    (_save_database sample_world sample_new_data (Halt (AtDump 17))).1 = ∅
  /\ ~ (_load_database
          (_save_database sample_world sample_new_data (Halt (AtDump 17))).1
        = _load_database sample_world
        \/ _load_database
             (_save_database sample_world sample_new_data (Halt (AtDump 17))).1
           = sample_new_data).
Proof.
  split; [reflexivity|].
  intros [H | H]; apply (f_equal (fun m => access_key <$> m !! "pub1")) in H;
    vm_compute in H; discriminate H.
Qed.

Lemma manifest_rewrite_witness :
  (single_line "pub1" = true
   /\ single_line "T" = true
   /\ (let raw :=
         "#EXTM3U" +:+ String CR NL +:+ "http://h/p/seg0.ts" +:+ NL
         +:+ "  #EXT-X-ENDLIST " in
       let out := readlines (rewrite_playlist_with_auth_urls raw "pub1" "T") in
       length out = length (readlines raw)
       /\ forall i,
            out !! i = rewrite_line "pub1" "T" <$> readlines raw !! i))
  /\ (endswith (strip ("http://h/p/seg0.ts" +:+ NL)) ".ts" = true
      /\ rewrite_line "pub1" "T" ("http://h/p/seg0.ts" +:+ NL)
         = "/stream/pub1/seg0.ts?token=T" +:+ NL
      /\ has_char "?" "pub1" = false
      /\ has_char "#" "pub1" = false
      /\ has_char "?" "seg0.ts" = false
      /\ has_char "#" "seg0.ts" = false
      /\ has_char "&" "T" = false
      /\ has_char "#" "T" = false
      /\ uri_query "/stream/pub1/seg0.ts?token=T" = Some "token=T"
      /\ query_params "/stream/pub1/seg0.ts?token=T" = ["token=T"])
  /\ (endswith (strip ("  #EXT-X-ENDLIST " +:+ NL)) ".ts" = false
      /\ rewrite_line "pub1" "T" ("  #EXT-X-ENDLIST " +:+ NL)
         = "#EXT-X-ENDLIST" +:+ NL)
  /\ (strip "#EXTINF:10.0," = "#EXTINF:10.0,"
      /\ endswith "#EXTINF:10.0," ".ts" = false
      /\ rewrite_line "pub1" "T" ("#EXTINF:10.0," +:+ NL)
         = "#EXTINF:10.0," +:+ NL).
Proof.
  pose proof (manifest_rewrite "pub1" "T")
    as (Hlines & Hchunk & Hother & Hsame).
  assert (Hid : single_line "pub1" = true) by reflexivity.
  assert (Htok : single_line "T" = true) by reflexivity.
  assert (Hts : endswith (strip ("http://h/p/seg0.ts" +:+ NL)) ".ts" = true)
    by reflexivity.
  assert (Hno : endswith (strip ("  #EXT-X-ENDLIST " +:+ NL)) ".ts" = false)
    by reflexivity.
  assert (Hstrip : strip "#EXTINF:10.0," = "#EXTINF:10.0,") by reflexivity.
  assert (Hno' : endswith "#EXTINF:10.0," ".ts" = false) by reflexivity.
  split; [|split; [|split]].
  - split; [exact Hid|]. split; [exact Htok|].
    exact (Hlines _ Hid Htok).
  - destruct (Hchunk ("http://h/p/seg0.ts" +:+ NL) Hts) as [Hline Hquery].
    split; [exact Hts|]. split; [exact Hline|].
    do 6 (split; [reflexivity|]).
    exact (Hquery eq_refl eq_refl eq_refl eq_refl eq_refl eq_refl).
  - split; [exact Hno|].
    exact (Hother ("  #EXT-X-ENDLIST " +:+ NL) Hno).
  - split; [exact Hstrip|]. split; [exact Hno'|].
    exact (proj1 (Hsame "#EXTINF:10.0," Hstrip Hno')).
Defined.

(** C6, as stated, fails. A line that references no chunk and starts with a
    blank loses the blank, so it is not passed through unchanged up to its
    line ending. A chunk line that holds a query of its own yields a URL
    whose single query parameter is not [token={token}], and one that holds
    a ["#"] yields a URL with no query at all, the token being part of its
    fragment. With a token that holds a line feed a manifest of one line
    comes out as two. *)
Lemma manifest_rewrite_counterexample :
  (endswith (strip (" #EXTM3U" +:+ NL)) ".ts" = false
   /\ rewrite_playlist_with_auth_urls (" #EXTM3U" +:+ NL) "pub1" "T"
      = "#EXTM3U" +:+ NL
   /\ rewrite_playlist_with_auth_urls (" #EXTM3U" +:+ NL) "pub1" "T"
      <> " #EXTM3U" +:+ NL)
  /\ (rewrite_playlist_with_auth_urls ("a?token=x.ts" +:+ NL) "pub1" "T"
      = "/stream/pub1/a?token=x.ts?token=T" +:+ NL
      /\ query_params "/stream/pub1/a?token=x.ts?token=T"
         = ["token=x.ts?token=T"]
      /\ query_params "/stream/pub1/a?token=x.ts?token=T" <> ["token=T"])
  /\ (rewrite_playlist_with_auth_urls ("seg#1.ts" +:+ NL) "pub1" "T"
      = "/stream/pub1/seg#1.ts?token=T" +:+ NL
      /\ uri_query "/stream/pub1/seg#1.ts?token=T" = None
      /\ query_params "/stream/pub1/seg#1.ts?token=T" = [])
  /\ (length (readlines ("a.ts" +:+ NL)) = 1%nat
      /\ rewrite_playlist_with_auth_urls ("a.ts" +:+ NL) "pub1"
           ("T" +:+ NL +:+ "U")
         = "/stream/pub1/a.ts?token=T" +:+ NL +:+ "U" +:+ NL
      /\ length
           (readlines
              (rewrite_playlist_with_auth_urls ("a.ts" +:+ NL) "pub1"
                 ("T" +:+ NL +:+ "U")))
         = 2%nat).
Proof.
  repeat split; try reflexivity; discriminate.
Qed.

Lemma extend_expiry_arithmetic_witness :
  get_video sample_world "pub1" = Some sample_record
  /\ expiry_minutes sample_record = Some 60
  /\ admin_key sample_record = Some "adm1"
  /\ 1 <= 10050 <= 10080
  /\ (extend_media_expiry sample_world 5000 "pub1" "adm1" 10050).1
     = Ok (ExtendBody "pub1" 60 10080 10020)
  /\ (exists r',
        get_video (extend_media_expiry sample_world 5000 "pub1" "adm1" 10050).2
          "pub1" = Some r'
        /\ expiry_minutes r' = Some 10080).
Proof.
  assert (Hr : get_video sample_world "pub1" = Some sample_record)
    by reflexivity.
  assert (HN : 1 <= 10050 <= 10080) by lia.
  pose proof (extend_expiry_arithmetic sample_world 5000 "pub1" "adm1" 10050
                sample_record 60 Hr eq_refl eq_refl HN) as (Hbody & Hstored & _).
  split; [exact Hr|]. split; [reflexivity|]. split; [reflexivity|].
  split; [exact HN|]. split; [exact Hbody | exact Hstored].
Defined.

Lemma admin_gate_witness :
  (get_video sample_world "pub0" = None
   /\ run_admin_op sample_sha256 sample_sign "secret" "HS256" sample_compact
        sample_cwd DeleteMedia sample_world 5000 "pub0" "adm1"
      = (HTTPException 404 "Media not found!", sample_world))
  /\ (get_video sample_world "pub1" = Some sample_record
      /\ admin_key sample_record <> Some "adm2"
      /\ run_admin_op sample_sha256 sample_sign "secret" "HS256"
           sample_compact sample_cwd DeleteMedia sample_world 5000 "pub1"
           "adm2"
         = (HTTPException 403 "Invalid admin key!", sample_world))
  /\ ((run_admin_op sample_sha256 sample_sign "secret" "HS256"
         sample_compact sample_cwd DeleteMedia sample_world 5000 "pub1"
         "adm1").2 <> sample_world
      /\ exists r,
           get_video sample_world "pub1" = Some r
           /\ admin_key r = Some "adm1").
Proof.
  split; [|split].
  - split; [reflexivity|].
    exact (proj1 (admin_gate sample_sha256 sample_sign "secret" "HS256"
                    sample_compact sample_cwd DeleteMedia sample_world 5000
                    "pub0" "adm1") eq_refl).
  - assert (Hne : admin_key sample_record <> Some "adm2") by discriminate.
    split; [reflexivity|]. split; [exact Hne|].
    exact (proj1 (proj2 (admin_gate sample_sha256 sample_sign "secret" "HS256"
                           sample_compact sample_cwd DeleteMedia sample_world
                           5000 "pub1" "adm2")) sample_record eq_refl Hne).
  - assert (Hchg : (run_admin_op sample_sha256 sample_sign "secret" "HS256"
                      sample_compact sample_cwd DeleteMedia sample_world 5000
                      "pub1" "adm1").2 <> sample_world).
    { intros H. apply (f_equal (fun w => access_key <$> get_video w "pub1")) in H.
      vm_compute in H. discriminate H. }
    split; [exact Hchg|].
    exact (proj2 (proj2 (admin_gate sample_sha256 sample_sign "secret" "HS256"
                           sample_compact sample_cwd DeleteMedia sample_world
                           5000 "pub1" "adm1")) Hchg).
Defined.

Lemma upload_cleanup_witness :
  is_Some (stderr sample_failed_run)
  /\ (exists detail,
        (upload_media sample_sha256 sample_sign "secret" "HS256"
           sample_compact sample_cwd sample_world 5000 sample_failed_run
           "int9" "pub9" "ak9" "adm9" "jti9" "http://h/" "bytes" 60).1
        = HTTPException 500 detail)
  /\ exists_ sample_cwd
       (upload_media sample_sha256 sample_sign "secret" "HS256"
          sample_compact sample_cwd sample_world 5000 sample_failed_run
          "int9" "pub9" "ak9" "adm9" "jti9" "http://h/" "bytes" 60).2
       (path_join HLS_ROOT "int9") = false
  /\ get_video
       (upload_media sample_sha256 sample_sign "secret" "HS256"
          sample_compact sample_cwd sample_world 5000 sample_failed_run
          "int9" "pub9" "ak9" "adm9" "jti9" "http://h/" "bytes" 60).2
       "pub9" = get_video sample_world "pub9"
  /\ exists_ sample_cwd
       (upload_media sample_sha256 sample_sign "secret" "HS256"
          sample_compact sample_cwd sample_world 5000 sample_failed_run
          "int9" "pub9" "ak9" "adm9" "jti9" "http://h/" "bytes" 60).2
       (path_join HLS_ROOT ("int9" +:+ ".mp4")) = false.
Proof.
  assert (Hfail : is_Some (stderr sample_failed_run))
    by (eexists; reflexivity).
  destruct (upload_cleanup sample_sha256 sample_sign "secret" "HS256"
              sample_compact sample_cwd sample_world 5000 sample_failed_run
              "int9" "pub9" "ak9" "adm9" "jti9" "http://h/" "bytes" 60)
    as [Hclean Horig].
  destruct (Hclean Hfail) as (H500 & _ & Hdir & _ & _ & Hstore).
  split; [exact Hfail|]. split; [exact H500|]. split; [exact Hdir|].
  split; [exact (Hstore "pub9") | exact Horig].
Defined.

Lemma stored_expiry_does_not_affect_tokens_witness :
  get_video sample_world "pub1" = Some sample_record
  /\ get_video
       (World
          (Some (Document
                   {[ "pub1" := set_expiry_minutes sample_record (Some 5) ]}))
          None ∅) "pub1"
     = Some (set_expiry_minutes sample_record (Some 5))
  /\ set_expiry_minutes sample_record None
     = set_expiry_minutes (set_expiry_minutes sample_record (Some 5)) None
  /\ verify_access_token sample_sha256 sample_sign sample_int true
       "secret" "HS256" 1030
       (create_access_token sample_sha256 sample_sign "secret" "HS256"
          1000 "jti1" "pub1" "ak1" 60)
       "pub1" (access_key sample_record)
     = verify_access_token sample_sha256 sample_sign sample_int true
         "secret" "HS256" 1030
         (create_access_token sample_sha256 sample_sign "secret" "HS256"
            1000 "jti1" "pub1" "ak1" 60)
         "pub1" (access_key (set_expiry_minutes sample_record (Some 5))).
Proof.
  split; [reflexivity|]. split; [reflexivity|]. split; [reflexivity|].
  exact (proj1 (stored_expiry_does_not_affect_tokens sample_sha256
                  sample_sign sample_int true "secret" "HS256"
                  sample_compact sample_cwd)
           sample_world
           (World
              (Some (Document
                       {[ "pub1" :=
                            set_expiry_minutes sample_record (Some 5) ]}))
              None ∅)
           "pub1" sample_record (set_expiry_minutes sample_record (Some 5))
           1030
           (create_access_token sample_sha256 sample_sign "secret" "HS256"
              1000 "jti1" "pub1" "ak1" 60)
           eq_refl eq_refl eq_refl).
Defined.

(** * The further properties on the sample instances *)

Local Abbreviation s_create :=
  (create_access_token sample_sha256 sample_sign "secret" "HS256").
Local Abbreviation s_verify :=
  (verify_access_token sample_sha256 sample_sign sample_int true "secret"
     "HS256").
Local Abbreviation s_create_admin :=
  (create_admin_token sample_sha256 sample_sign "secret" "HS256").
Local Abbreviation s_verify_admin :=
  (verify_admin_token sample_sha256 sample_sign sample_int true "secret"
     "HS256").
Local Abbreviation s_get_playlist :=
  (get_playlist sample_sha256 sample_sign sample_int true "secret" "HS256"
     sample_compact sample_cwd).
Local Abbreviation s_get_segment :=
  (get_segment sample_sha256 sample_sign sample_int true "secret" "HS256"
     sample_cwd).
Local Abbreviation s_upload :=
  (upload_media sample_sha256 sample_sign "secret" "HS256" sample_compact
     sample_cwd).
Local Abbreviation s_refresh :=
  (refresh_access_token sample_sha256 sample_sign "secret" "HS256"
     sample_compact sample_cwd).

Lemma sample_cs_plain :
  Forall (fun c => plain_component c = true) sample_cs.
Proof. by repeat constructor. Defined.

Lemma admin_token_key_binding_witness :
  (1000 <= 1030 \/ true = false)
  /\ 1030 < 1000 + 3600 * 24
  /\ s_verify_admin 1030 (s_create_admin 1000 "jti1" "adm1" 24) "adm2"
     = bool_decide (sample_sha256 "adm1" = sample_sha256 "adm2")
  /\ s_verify_admin 1030 (s_create_admin 1000 "jti1" "adm1" 24) "adm1"
     = true.
Proof.
  assert (H1 : 1000 <= 1030 \/ true = false) by (left; lia).
  assert (H2 : 1030 < 1000 + 3600 * 24) by lia.
  split; [exact H1|]. split; [exact H2|].
  exact (admin_token_key_binding sample_sha256 sample_sign sample_int true
           "secret" "HS256" 1000 1030 "jti1" "adm1" "adm2" 24 H1 H2).
Defined.

Lemma access_token_is_no_admin_token_witness :
  ({[ "token_type" := JStr "access" ]} : gmap string jvalue) !! "token_type"
  <> Some (JStr "admin")
  /\ s_verify_admin 1030
       (Jws "HS256" {[ "token_type" := JStr "access" ]}
          (sample_sign "HS256" "secret" {[ "token_type" := JStr "access" ]}))
       "adm1" = false.
Proof.
  assert (H : ({[ "token_type" := JStr "access" ]} : gmap string jvalue)
              !! "token_type" <> Some (JStr "admin")) by discriminate.
  split; [exact H|].
  exact (proj2 (access_token_is_no_admin_token sample_sha256 sample_sign
                  sample_int true "secret" "HS256")
           1030 "HS256" _ _ "adm1" H).
Defined.

Lemma verify_access_token_sound_witness :
  s_verify 1030 (s_create 1000 "jti1" "pub1" "ak1" 60) "pub1" "ak1" = true
  /\ exists payload,
       s_create 1000 "jti1" "pub1" "ak1" 60
       = Jws "HS256" payload
           (sample_sign "HS256"
              (generate_signing_key sample_sha256 "secret" "ak1") payload)
       /\ payload !! "token_type" = Some (JStr "access")
       /\ payload !! "media_id" = Some (JStr "pub1")
       /\ payload !! "access_key_hash"
          = Some (JStr (hash_string sample_sha256 "ak1"))
       /\ (forall e, payload !! "exp" = Some (JInt e) -> 1030 < e).
Proof.
  assert (H : s_verify 1030 (s_create 1000 "jti1" "pub1" "ak1" 60) "pub1"
                "ak1" = true) by reflexivity.
  split; [exact H|].
  exact (verify_access_token_sound sample_sha256 sample_sign sample_int true
           "secret" "HS256" 1030 _ "pub1" "ak1" H).
Defined.

Lemma access_token_bound_to_key_witness :
  hash_string sample_sha256 "ak1" <> hash_string sample_sha256 "ak2"
  /\ s_verify 1030 (s_create 1000 "jti1" "pub1" "ak1" 60) "pub1" "ak2"
     = false.
Proof.
  assert (H : hash_string sample_sha256 "ak1"
              <> hash_string sample_sha256 "ak2") by discriminate.
  split; [exact H|].
  exact (access_token_bound_to_key sample_sha256 sample_sign sample_int true
           "secret" "HS256" 1000 1030 "jti1" "pub1" "pub1" "ak1" "ak2" 60 H).
Defined.

Lemma access_token_validity_window_witness :
  1000 <= 4600
  /\ s_verify 4600 (s_create 1000 "jti1" "pub1" "ak1" 60) "pub1" "ak1"
     = bool_decide (4600 < 1000 + 60 * 60).
Proof.
  assert (H : 1000 <= 4600) by lia.
  split; [exact H|].
  exact (access_token_validity_window sample_sha256 sample_sign sample_int
           true "secret" "HS256" 1000 4600 "jti1" "pub1" "ak1" 60 H).
Defined.

Lemma validate_token_format_spec_witness :
  (exists s, Some (JStr "..") = Some (JStr s) /\ count_char "." s = 2%nat)
  /\ validate_token_format (Some (JStr "..")) = true.
Proof.
  assert (H : exists s, Some (JStr "..") = Some (JStr s)
                        /\ count_char "." s = 2%nat)
    by (exists ".."; split; reflexivity).
  split; [exact H|].
  exact (proj2 (validate_token_format_spec (Some (JStr ".."))) H).
Defined.

Lemma store_video_get_video_witness :
  "pub1" <> "pub2"
  /\ get_video (store_video sample_world 5000 "pub2" sample_record2) "pub2"
     = Some (set_updated_at (set_created_at sample_record2 (Some 5000))
               (Some 5000))
  /\ get_video (store_video sample_world 5000 "pub2" sample_record2) "pub1"
     = get_video sample_world "pub1".
Proof.
  assert (H : "pub1" <> "pub2") by discriminate.
  destruct (store_video_get_video sample_world 5000 "pub2" sample_record2)
    as (Hnew & Hother & _).
  split; [exact H|]. split; [exact Hnew | exact (Hother "pub1" H)].
Defined.

Lemma delete_video_spec_witness :
  is_Some (get_video sample_world "pub1")
  /\ (delete_video sample_world "pub1").2 = true
  /\ get_video (delete_video sample_world "pub1").1 "pub1" = None
  /\ get_video sample_world "pub0" = None
  /\ delete_video sample_world "pub0" = (sample_world, false).
Proof.
  assert (H1 : is_Some (get_video sample_world "pub1"))
    by (eexists; reflexivity).
  assert (H0 : get_video sample_world "pub0" = None) by reflexivity.
  destruct (proj1 (delete_video_spec sample_world "pub1") H1)
    as (Htrue & Hgone & _).
  split; [exact H1|]. split; [exact Htrue|]. split; [exact Hgone|].
  split; [exact H0|].
  exact (proj2 (delete_video_spec sample_world "pub0") H0).
Defined.

Lemma update_video_spec_witness :
  get_video sample_world "pub0" = None
  /\ update_video sample_world 5000 "pub0" sample_record2
     = (sample_world, false)
  /\ is_Some (get_video sample_world "pub1")
  /\ get_video (update_video sample_world 5000 "pub1" sample_record2).1
       "pub1"
     = Some (set_updated_at sample_record2 (Some 5000)).
Proof.
  assert (H0 : get_video sample_world "pub0" = None) by reflexivity.
  assert (H1 : is_Some (get_video sample_world "pub1"))
    by (eexists; reflexivity).
  destruct (update_video_spec sample_world 5000 "pub0" sample_record2)
    as [Habsent _].
  destruct (update_video_spec sample_world 5000 "pub1" sample_record2)
    as [_ Hpresent].
  split; [exact H0|]. split; [exact (Habsent H0)|]. split; [exact H1|].
  exact (proj1 (proj2 (Hpresent H1))).
Defined.

Lemma store_video_over_unreadable_file_witness :
  (db_file (World (Some (Truncated sample_new_data 17)) None ∅) = None
   \/ exists d k,
        db_file (World (Some (Truncated sample_new_data 17)) None ∅)
        = Some (Truncated d k))
  /\ _load_database
       (store_video (World (Some (Truncated sample_new_data 17)) None ∅)
          5000 "pub1" sample_record)
     = {[ "pub1" :=
            set_updated_at (set_created_at sample_record (Some 5000))
              (Some 5000) ]}.
Proof.
  assert (H : db_file (World (Some (Truncated sample_new_data 17)) None ∅)
              = None
              \/ exists d k,
                   db_file (World (Some (Truncated sample_new_data 17))
                              None ∅)
                   = Some (Truncated d k))
    by (right; eexists _, _; reflexivity).
  split; [exact H|].
  exact (proj2 (store_video_over_unreadable_file _ 5000 "pub1" sample_record
                  H)).
Defined.

Lemma cleanup_expired_videos_never_removes_witness :
  _load_database sample_world <> ∅
  /\ (cleanup_expired_videos sample_world 999999).1 = sample_world
  /\ (cleanup_expired_videos sample_world 999999).2
     = inr (NameError "timedelta")
  /\ _load_database (World None None ∅) = ∅
  /\ (cleanup_expired_videos (World None None ∅) 999999).2 = inl 0%nat.
Proof.
  assert (H : _load_database sample_world <> ∅).
  { intros Heq. apply (f_equal (fun m => access_key <$> m !! "pub1")) in Heq.
    vm_compute in Heq. discriminate Heq. }
  destruct (cleanup_expired_videos_never_removes sample_world 999999)
    as (Hsame & _ & Hraise).
  destruct (cleanup_expired_videos_never_removes (World None None ∅) 999999)
    as (_ & Hzero & _).
  split; [exact H|]. split; [exact Hsame|]. split; [exact (Hraise H)|].
  split; [reflexivity | exact (Hzero eq_refl)].
Defined.

Lemma halted_save_leaves_backup_witness :
  db_file sample_world = Some (Document {[ "pub1" := sample_record ]})
  /\ backup_file
       (_save_database sample_world sample_new_data (Halt (AtDump 17))).1
     = Some (Document {[ "pub1" := sample_record ]})
  /\ _load_database
       (_save_database sample_world sample_new_data (Halt (AtDump 17))).1
     = ∅.
Proof.
  assert (H : db_file sample_world
              = Some (Document {[ "pub1" := sample_record ]}))
    by reflexivity.
  destruct (halted_save_leaves_backup sample_world sample_new_data 17 _ H)
    as (Hbackup & _ & Hload & _).
  split; [exact H|]. split; [exact Hbackup | exact Hload].
Defined.

Lemma content_requires_valid_token_witness :
  s_get_segment sample_world 1030 "pub1" "segment3.ts"
    (s_create 1000 "jti1" "pub1" "ak1" 60)
  = Ok (FileBody "/srv/app/media/hls/int1/segment3.ts")
  /\ exists r p,
       get_video sample_world "pub1" = Some r
       /\ s_verify 1030 (s_create 1000 "jti1" "pub1" "ak1" 60) "pub1"
            (access_key r) = true
       /\ FileBody "/srv/app/media/hls/int1/segment3.ts" = FileBody p
       /\ startswith p
            (abspath sample_cwd (path_join HLS_ROOT (internal_id r)) +:+ "/")
          = true
       /\ exists_ sample_cwd sample_world p = true.
Proof.
  assert (H : s_get_segment sample_world 1030 "pub1" "segment3.ts"
                (s_create 1000 "jti1" "pub1" "ak1" 60)
              = Ok (FileBody "/srv/app/media/hls/int1/segment3.ts"))
    by reflexivity.
  split; [exact H|].
  exact (proj2 (content_requires_valid_token sample_sha256 sample_sign
                  sample_int true "secret" "HS256" sample_compact sample_cwd
                  sample_world 1030 "pub1"
                  (s_create 1000 "jti1" "pub1" "ak1" 60))
           "segment3.ts" _ H).
Defined.

Lemma upload_success_witness :
  stderr sample_ok_run = None
  /\ get_video
       (s_upload sample_world 5000 sample_ok_run "int9" "pub9" "ak9" "adm9"
          "jti9" "http://h/" "bytes" 60).2 "pub9"
     = Some (MediaRecord "pub9" "int9" "ak9" (Some "adm9") 5000 (Some 60)
               None None (Some 5000) (Some 5000))
  /\ (5000 <= 5030 < 5000 + 60 * 60)
  /\ s_verify 5030 (s_create 5000 "jti9" "pub9" "ak9" 60) "pub9" "ak9"
     = true.
Proof.
  assert (H : stderr sample_ok_run = None) by reflexivity.
  assert (Hnow : 5000 <= 5030 < 5000 + 60 * 60) by lia.
  destruct (upload_success sample_sha256 sample_sign sample_int true "secret"
              "HS256" sample_compact sample_cwd sample_world 5000
              sample_ok_run "int9" "pub9" "ak9" "adm9" "jti9" "http://h/"
              "bytes" 60 H)
    as (_ & Hrec & _ & Hverify & _).
  split; [exact H|]. split; [exact Hrec|]. split; [exact Hnow|].
  exact (Hverify 5030 Hnow).
Defined.

Lemma refresh_access_token_spec_witness :
  get_video sample_world "pub1" = Some sample_record
  /\ admin_key sample_record = Some "adm1"
  /\ exists_ sample_cwd sample_world
       (path_join (path_join HLS_ROOT (internal_id sample_record))
          "playlist.m3u8") = true
  /\ get_video
       (s_refresh sample_world 5000 "jti2" "http://h/" "pub1" "adm1" 5).2
       "pub1"
     = Some (MediaRecord "pub1" "int1" "ak1" (Some "adm1") 1000 (Some 5)
               (Some 5000) None None (Some 5000))
  /\ exists_ sample_cwd sample_bare_world
       (path_join (path_join HLS_ROOT (internal_id sample_record))
          "playlist.m3u8") = false
  /\ s_refresh sample_bare_world 5000 "jti2" "http://h/"
       "pub1" "adm1" 5
     = (HTTPException 404 "Media files not found!",
        sample_bare_world).
Proof.
  assert (Hr : get_video sample_world "pub1" = Some sample_record)
    by reflexivity.
  assert (Hk : admin_key sample_record = Some "adm1") by reflexivity.
  destruct (refresh_access_token_spec sample_sha256 sample_sign sample_int
              true "secret" "HS256" sample_compact sample_cwd sample_world
              5000 "jti2" "http://h/" "pub1" "adm1" 5 sample_record Hr Hk)
    as [_ Hfound].
  destruct (refresh_access_token_spec sample_sha256 sample_sign sample_int
              true "secret" "HS256" sample_compact sample_cwd
              sample_bare_world
              5000 "jti2" "http://h/" "pub1" "adm1" 5 sample_record Hr Hk)
    as [Hmissing _].
  assert (Hthere : exists_ sample_cwd sample_world
                     (path_join
                        (path_join HLS_ROOT (internal_id sample_record))
                        "playlist.m3u8") = true) by reflexivity.
  assert (Hnot : exists_ sample_cwd sample_bare_world
                   (path_join
                      (path_join HLS_ROOT (internal_id sample_record))
                      "playlist.m3u8") = false) by reflexivity.
  split; [exact Hr|]. split; [exact Hk|]. split; [exact Hthere|].
  split; [exact (proj1 (proj2 (Hfound Hthere)))|].
  split; [exact Hnot | exact (Hmissing Hnot)].
Defined.

Lemma delete_media_spec_witness :
  get_video sample_world "pub1" = Some sample_record
  /\ admin_key sample_record = Some "adm1"
  /\ get_video (delete_media sample_cwd sample_world "pub1" "adm1").2 "pub1"
     = None
  /\ exists_ sample_cwd (delete_media sample_cwd sample_world "pub1" "adm1").2
       (path_join HLS_ROOT (internal_id sample_record)) = false
  /\ s_get_playlist (delete_media sample_cwd sample_world "pub1" "adm1").2
       1030 "pub1" (s_create 1000 "jti1" "pub1" "ak1" 60)
     = HTTPException 404 "Media not found!".
Proof.
  assert (Hr : get_video sample_world "pub1" = Some sample_record)
    by reflexivity.
  assert (Hk : admin_key sample_record = Some "adm1") by reflexivity.
  destruct (delete_media_spec sample_sha256 sample_sign sample_int true
              "secret" "HS256" sample_compact sample_cwd sample_world "pub1"
              "adm1" sample_record Hr Hk)
    as (_ & Hgone & _ & Hdir & _ & Hserve & _).
  split; [exact Hr|]. split; [exact Hk|]. split; [exact Hgone|].
  split; [exact Hdir|].
  exact (proj1 (Hserve 1030 (s_create 1000 "jti1" "pub1" "ak1" 60)
                  "segment3.ts")).
Defined.

Lemma extend_media_expiry_compose_witness :
  get_video sample_world "pub1" = Some sample_record
  /\ admin_key sample_record = Some "adm1"
  /\ 0 <= 6000 /\ 0 <= 7000
  /\ expiry_minutes
     <$> get_video
           (extend_media_expiry
              (extend_media_expiry sample_world 5000 "pub1" "adm1" 6000).2
              5001 "pub1" "adm1" 7000).2 "pub1"
     = Some (Some 10080).
Proof.
  assert (Hr : get_video sample_world "pub1" = Some sample_record)
    by reflexivity.
  assert (Hk : admin_key sample_record = Some "adm1") by reflexivity.
  assert (H1 : 0 <= 6000) by lia.
  assert (H2 : 0 <= 7000) by lia.
  split; [exact Hr|]. split; [exact Hk|]. split; [exact H1|].
  split; [exact H2|].
  exact (proj1 (extend_media_expiry_compose sample_world 5000 5001 5002
                  "pub1" "adm1" 6000 7000 sample_record Hr Hk H1 H2)).
Defined.

Lemma extend_media_expiry_grant_witness :
  get_video sample_world "pub1" = Some sample_record
  /\ admin_key sample_record = Some "adm1"
  /\ exists new_expiry extended_by,
       (extend_media_expiry sample_world 5000 "pub1" "adm1" 10050).1
       = Ok (ExtendBody "pub1" 60 new_expiry extended_by)
       /\ new_expiry = 10080
       /\ extended_by = 10020.
Proof.
  assert (Hr : get_video sample_world "pub1" = Some sample_record)
    by reflexivity.
  assert (Hk : admin_key sample_record = Some "adm1") by reflexivity.
  split; [exact Hr|]. split; [exact Hk|].
  destruct (extend_media_expiry_grant sample_world 5000 "pub1" "adm1" 10050
              sample_record Hr Hk)
    as (new_expiry & extended_by & Hbody & Hnew & Hby & _).
  exists new_expiry, extended_by.
  split; [exact Hbody|]. split; [exact Hnew|].
  rewrite Hby, Hnew. reflexivity.
Defined.

Lemma segment_resolution_canonical_witness :
  Forall (fun c => plain_component c = true) sample_cs
  /\ sample_cwd = root_path sample_cs
  /\ plain_component "int1" = true
  /\ ~ bad_segment_name "segment3.ts"
  /\ resolve_segment sample_cwd sample_world "int1" "segment3.ts"
     = Ok (FileBody "/srv/app/media/hls/int1/segment3.ts").
Proof.
  assert (Hgood : ~ bad_segment_name "segment3.ts")
    by (intros [H | [H | H]]; discriminate H).
  split; [exact sample_cs_plain|]. split; [reflexivity|].
  split; [reflexivity|]. split; [exact Hgood|].
  exact (proj1 (segment_resolution_canonical sample_cwd sample_cs "int1"
                  sample_cs_plain eq_refl eq_refl)
           sample_world "segment3.ts" Hgood).
Defined.

Lemma delete_media_isolation_witness :
  Forall (fun c => plain_component c = true) sample_cs
  /\ sample_cwd = root_path sample_cs
  /\ get_video sample_world2 "pub1" = Some sample_record
  /\ admin_key sample_record = Some "adm1"
  /\ plain_component (internal_id sample_record) = true
  /\ get_video sample_world2 "pub2" = Some sample_record2
  /\ "pub2" <> "pub1"
  /\ plain_component (internal_id sample_record2) = true
  /\ internal_id sample_record2 <> internal_id sample_record
  /\ s_get_segment (delete_media sample_cwd sample_world2 "pub1" "adm1").2
       2030 "pub2" "segment0.ts" (s_create 2000 "jti2" "pub2" "ak2" 60)
     = s_get_segment sample_world2 2030 "pub2" "segment0.ts"
         (s_create 2000 "jti2" "pub2" "ak2" 60).
Proof.
  assert (Hr1 : get_video sample_world2 "pub1" = Some sample_record)
    by reflexivity.
  assert (Hr2 : get_video sample_world2 "pub2" = Some sample_record2)
    by reflexivity.
  assert (Hne : "pub2" <> "pub1") by discriminate.
  assert (Hdiff : internal_id sample_record2 <> internal_id sample_record)
    by discriminate.
  destruct (delete_media_isolation sample_sha256 sample_sign sample_int true
              "secret" "HS256" sample_compact sample_cwd sample_cs
              sample_world2 "pub1" "adm1" sample_record sample_cs_plain
              eq_refl Hr1 eq_refl eq_refl)
    as [_ Hserve].
  split; [exact sample_cs_plain|]. split; [reflexivity|].
  split; [exact Hr1|]. split; [reflexivity|]. split; [reflexivity|].
  split; [exact Hr2|]. split; [exact Hne|]. split; [reflexivity|].
  split; [exact Hdiff|].
  exact (proj2 (Hserve "pub2" sample_record2 2030 "segment0.ts"
                  (s_create 2000 "jti2" "pub2" "ak2" 60)
                  Hr2 Hne eq_refl Hdiff)).
Defined.

Lemma upload_then_stream_witness :
  Forall (fun c => plain_component c = true) sample_cs
  /\ sample_cwd = root_path sample_cs
  /\ plain_component "int9" = true
  /\ stderr sample_ok_run = None
  /\ playlist sample_ok_run
     = Some ("#EXTM3U" +:+ NL +:+ "segment0.ts" +:+ NL)
  /\ (5000 <= 5030 < 5000 + 60 * 60)
  /\ (1 < length (segments sample_ok_run))%nat
  /\ s_get_playlist
       (s_upload sample_world 5000 sample_ok_run "int9" "pub9" "ak9" "adm9"
          "jti9" "http://h/" "bytes" 60).2
       5030 "pub9" (s_create 5000 "jti9" "pub9" "ak9" 60)
     = Ok (PlaylistBody
             (rewrite_playlist_with_auth_urls
                ("#EXTM3U" +:+ NL +:+ "segment0.ts" +:+ NL) "pub9"
                (token_text sample_compact
                   (s_create 5000 "jti9" "pub9" "ak9" 60))))
  /\ s_get_segment
       (s_upload sample_world 5000 sample_ok_run "int9" "pub9" "ak9" "adm9"
          "jti9" "http://h/" "bytes" 60).2
       5030 "pub9" ("segment" +:+ pretty 1%nat +:+ ".ts")
       (s_create 5000 "jti9" "pub9" "ak9" 60)
     = Ok (FileBody
             (root_path
                (sample_cs ++ ["media"; "hls"; "int9";
                               "segment" +:+ pretty 1%nat +:+ ".ts"]))).
Proof.
  assert (Hnow : 5000 <= 5030 < 5000 + 60 * 60) by lia.
  assert (Hlen : (1 < length (segments sample_ok_run))%nat)
    by (simpl; lia).
  destruct (upload_then_stream sample_sha256 sample_sign sample_int true
              "secret" "HS256" sample_compact sample_cwd sample_cs
              sample_world 5000 sample_ok_run "int9" "pub9" "ak9" "adm9"
              "jti9" "http://h/" "bytes" 60 5030
              ("#EXTM3U" +:+ NL +:+ "segment0.ts" +:+ NL)
              sample_cs_plain eq_refl eq_refl eq_refl eq_refl Hnow)
    as [Hplaylist Hsegment].
  split; [exact sample_cs_plain|]. split; [reflexivity|].
  split; [reflexivity|]. split; [reflexivity|]. split; [reflexivity|].
  split; [exact Hnow|]. split; [exact Hlen|].
  split; [exact Hplaylist | exact (Hsegment 1%nat Hlen)].
Defined.

Lemma rewritten_name_fetchable_witness :
  endswith (strip ("  http://h/p/seg0.ts" +:+ NL)) ".ts" = true
  /\ rewrite_line "pub1" "T" ("  http://h/p/seg0.ts" +:+ NL)
     = "/stream/pub1/seg0.ts?token=T" +:+ NL
  /\ endswith "seg0.ts" ".ts" = true
  /\ contains "seg0.ts" "/" = false.
Proof.
  assert (H : endswith (strip ("  http://h/p/seg0.ts" +:+ NL)) ".ts" = true)
    by reflexivity.
  destruct (rewritten_name_fetchable "pub1" "T"
              ("  http://h/p/seg0.ts" +:+ NL) H)
    as (Hline & Hend & Hslash & _).
  split; [exact H|]. split; [exact Hline|].
  split; [exact Hend | exact Hslash].
Defined.

Lemma rewrite_line_idempotent_witness :
  endswith (strip ("  #EXT-X-ENDLIST " +:+ NL)) ".ts" = false
  /\ rewrite_line "pub1" "T"
       (rewrite_line "pub1" "T" ("  #EXT-X-ENDLIST " +:+ NL))
     = rewrite_line "pub1" "T" ("  #EXT-X-ENDLIST " +:+ NL).
Proof.
  assert (H : endswith (strip ("  #EXT-X-ENDLIST " +:+ NL)) ".ts" = false)
    by reflexivity.
  split; [exact H|].
  exact (proj2 (rewrite_line_idempotent "pub1" "T"
                  ("  #EXT-X-ENDLIST " +:+ NL) H)).
Defined.

Lemma get_media_info_reflects_updates_witness :
  get_video sample_world "pub1" = Some sample_record
  /\ admin_key sample_record = Some "adm1"
  /\ get_media_info sample_world "pub1" "adm1"
     = (Ok (InfoBody "pub1" 1000 60 None None None), sample_world)
  /\ (get_media_info
        (extend_media_expiry sample_world 5000 "pub1" "adm1" 30).2 "pub1"
        "adm1").1
     = Ok (InfoBody "pub1" 1000 90 None None (Some 5000)).
Proof.
  assert (Hr : get_video sample_world "pub1" = Some sample_record)
    by reflexivity.
  assert (Hk : admin_key sample_record = Some "adm1") by reflexivity.
  destruct (get_media_info_reflects_updates sample_sha256 sample_sign
              "secret" "HS256" sample_compact sample_cwd sample_world 5000
              "pub1" "adm1" sample_record Hr Hk)
    as (Hinfo & Hextend & _).
  split; [exact Hr|]. split; [exact Hk|].
  split; [exact Hinfo | exact (Hextend 30)].
Defined.

Lemma handlers_refuse_foreign_or_expired_witness :
  get_video sample_world2 "pub2" = Some sample_record2
  /\ ("pub1" <> "pub2"
      \/ hash_string sample_sha256 "ak1"
         <> hash_string sample_sha256 (access_key sample_record2)
      \/ 1000 + 60 * 60 <= 1030)
  /\ s_get_playlist sample_world2 1030 "pub2"
       (s_create 1000 "jti1" "pub1" "ak1" 60)
     = HTTPException 403 "Invalid or expired access token!"
  /\ s_get_segment sample_world2 1030 "pub2" "segment0.ts"
       (s_create 1000 "jti1" "pub1" "ak1" 60)
     = HTTPException 403 "Invalid or expired access token!".
Proof.
  assert (Hr : get_video sample_world2 "pub2" = Some sample_record2)
    by reflexivity.
  assert (Hcase : "pub1" <> "pub2"
                  \/ hash_string sample_sha256 "ak1"
                     <> hash_string sample_sha256 (access_key sample_record2)
                  \/ 1000 + 60 * 60 <= 1030) by (left; discriminate).
  split; [exact Hr|]. split; [exact Hcase|].
  exact (handlers_refuse_foreign_or_expired sample_sha256 sample_sign
           sample_int true "secret" "HS256" sample_compact sample_cwd
           sample_world2 1030 1000 "jti1" "pub1" "ak1" 60 "pub2"
           sample_record2 "segment0.ts" Hr Hcase).
Defined.
